(** * fix_logging.py: a shallow embedding and its verified properties

    The script reads one file, applies six [re.sub] rewrites in a fixed
    order and writes the result back.  The development has three layers:

    - [Re]: the fragment of Python's [re] module the six patterns use
      (literals, [\s*], [[^)]+], ordered alternation, one capturing group,
      [^] under [re.MULTILINE]) as a backtracking matcher, and [re.sub];
    - [fix_logging_text]: the six substitutions, in source order;
    - [Script]: the file system, standard output and the uncaught
      exceptions of [fix_logging] and of the [__main__] block.

    Text is a list of Unicode code points, as a Python [str] is. *)

From Stdlib Require Import NArith List Lia Bool Ascii String.
From stdpp Require Import base tactics option list strings gmap.

Local Open Scope N_scope.
Local Open Scope list_scope.

(** ** Text *)

Abbreviation char := N (only parsing).
Abbreviation str := (list N) (only parsing).

(** A Python string literal made of ASCII characters. *)
Definition py (s : string) : str :=
  map N_of_ascii (list_ascii_of_string s).

(** The double quote and the line feed. *)
Definition dq : str := [34].
Definition nl : str := [10].

Definition LF : char := 10.
Definition RPAREN : char := 41.
Definition LPAREN : char := 40.

Module Re.

(** ** Character classes

    [\s] on a [str] pattern is [Py_UNICODE_ISSPACE]: the ASCII table entries
    9..13, 28..31 and 32, and above ASCII the code points whose Unicode
    property is White_Space or whose bidirectional type is WS, B or S. *)
Definition is_space (c : char) : bool :=
  ((9 <=? c) && (c <=? 13)) || ((28 <=? c) && (c <=? 32))
  || (c =? 133) || (c =? 160) || (c =? 5760)
  || ((8192 <=? c) && (c <=? 8202))
  || (c =? 8232) || (c =? 8233) || (c =? 8239) || (c =? 8287) || (c =? 12288).

Inductive cclass : Type :=
  | CSpace                 (* \s *)
  | CNot (c : char).       (* [^c] *)

Definition in_class (k : cclass) (c : char) : bool :=
  match k with
  | CSpace => is_space c
  | CNot d => negb (c =? d)
  end.

(** ** Patterns *)

Inductive regex : Type :=
  | Lit (l : str)             (* a run of literal characters *)
  | Bol                       (* ^ with re.MULTILINE *)
  | Star (k : cclass)         (* k*, greedy *)
  | Plus (k : cclass)         (* k+, greedy *)
  | Alt (r1 r2 : regex)       (* r1|r2, left alternative first *)
  | Cat (r1 r2 : regex)       (* r1 r2 *)
  | Group (r : regex).        (* (r): capturing group 1 *)

Infix "-+-" := Cat (at level 60, right associativity).

(** ** Matcher state

    [bol] tells whether the current position is at the beginning of a line
    (the start of the text, or just after a line feed: what [^] tests under
    [re.MULTILINE]), [rest] is the text from the current position on, and
    [grp] the text captured by group 1 so far. *)
Record mstate : Type := MState {
  bol : bool;
  rest : str;
  grp : option str
}.

(** Match a run of literal characters at the head of [s]. *)
Fixpoint lit_match (l : str) (b : bool) (s : str) : option (bool * str) :=
  match l with
  | [] => Some (b, s)
  | a :: l' =>
      match s with
      | c :: s' => if c =? a then lit_match l' (c =? LF) s' else None
      | [] => None
      end
  end.

(** Greedy repetition of a class: every way of stopping, longest first. *)
Fixpoint star_states (k : cclass) (b : bool) (s : str) (g : option str)
  : list mstate :=
  match s with
  | c :: s' =>
      if in_class k c
      then star_states k (c =? LF) s' g ++ [MState b s g]
      else [MState b s g]
  | [] => [MState b [] g]
  end.

(** The text consumed between two states of one match. *)
Definition consumed (s s' : str) : str :=
  take (length s - length s') s.

(** All the ways [r] matches at a state, in the order a backtracking matcher
    tries them. *)
Fixpoint rmatch (r : regex) (st : mstate) : list mstate :=
  match r with
  | Lit l =>
      match lit_match l (bol st) (rest st) with
      | Some (b, s) => [MState b s (grp st)]
      | None => []
      end
  | Bol => if bol st then [st] else []
  | Star k => star_states k (bol st) (rest st) (grp st)
  | Plus k =>
      match rest st with
      | c :: s' =>
          if in_class k c then star_states k (c =? LF) s' (grp st) else []
      | [] => []
      end
  | Alt r1 r2 => rmatch r1 st ++ rmatch r2 st
  | Cat r1 r2 => flat_map (rmatch r2) (rmatch r1 st)
  | Group r1 =>
      map (fun st' => MState (bol st') (rest st')
                        (Some (consumed (rest st) (rest st'))))
          (rmatch r1 st)
  end.

(** The match at one position: the first success, if any. *)
Definition re_match (r : regex) (b : bool) (s : str) : option mstate :=
  head (rmatch r (MState b s None)).

(** ** Replacement templates *)

Inductive titem : Type :=
  | TLit (l : str)      (* literal text *)
  | TGroup1.            (* \1 *)

Definition expand_item (g : option str) (i : titem) : str :=
  match i with
  | TLit l => l
  | TGroup1 => default [] g
  end.

Definition expand (t : list titem) (g : option str) : str :=
  flat_map (expand_item g) t.

(** ** re.sub

    The scan goes left to right.  [skip] counts the characters of the text
    still covered by the last match; at [skip = 0] the pattern is tried at
    the current position.  On a match the expanded template is emitted and
    the matched characters are dropped; an empty match emits the template
    and copies the current character; otherwise the character is copied. *)
Fixpoint sub_scan (r : regex) (t : list titem)
    (b : bool) (s : str) (skip : nat) : str :=
  match skip with
  | S n =>
      match s with
      | [] => []
      | c :: s' => sub_scan r t (c =? LF) s' n
      end
  | O =>
      match re_match r b s with
      | Some m =>
          expand t (grp m) ++
          match s with
          | [] => []
          | c :: s' =>
              match (length s - length (rest m))%nat with
              | O => c :: sub_scan r t (c =? LF) s' 0
              | S n => sub_scan r t (c =? LF) s' n
              end
          end
      | None =>
          match s with
          | [] => []
          | c :: s' => c :: sub_scan r t (c =? LF) s' 0
          end
      end
  end.

(** The scan resumed inside a text; [b] tells whether it resumes at the
    beginning of a line. *)
Definition sub_at (r : regex) (t : list titem) (b : bool) (s : str) : str :=
  sub_scan r t b s 0.

(** [re.sub(r, t, s)]: the scan starts at the beginning of the text. *)
Definition sub (r : regex) (t : list titem) (s : str) : str :=
  sub_at r t true s.

(** Does the pattern match anywhere in the text ([re.search])? *)
Fixpoint search_at (r : regex) (b : bool) (s : str) : bool :=
  match re_match r b s with
  | Some _ => true
  | None =>
      match s with
      | [] => false
      | c :: s' => search_at r (c =? LF) s'
      end
  end.

Definition search (r : regex) (s : str) : bool := search_at r true s.

End Re.

Import Re.

(** ** The six rules of [fix_logging] *)

Definition not_rparen : cclass := CNot RPAREN.

(** r'if addon\.DEBUG then print\(string\.format\(([^)]+)\)\) end' *)
Definition pattern1 : regex :=
  Lit (py "if addon.DEBUG then print(string.format(")
  -+- Group (Plus not_rparen)
  -+- Lit (py ")) end").

(** r'if addon\.DEBUG then print\(([^)]+)\) end' *)
Definition pattern2 : regex :=
  Lit (py "if addon.DEBUG then print(")
  -+- Group (Plus not_rparen)
  -+- Lit (py ") end").

(** r'if addon\.DEBUG then\s*\n\s*print\(string\.format\(([^)]+)\)\)\s*\n\s*end' *)
Definition pattern3 : regex :=
  Lit (py "if addon.DEBUG then")
  -+- Star CSpace -+- Lit nl -+- Star CSpace
  -+- Lit (py "print(string.format(")
  -+- Group (Plus not_rparen)
  -+- Lit (py "))")
  -+- Star CSpace -+- Lit nl -+- Star CSpace
  -+- Lit (py "end").

(** r'if addon\.DEBUG then\s*\n\s*print\(([^)]+)\)\s*\n\s*end' *)
Definition pattern4 : regex :=
  Lit (py "if addon.DEBUG then")
  -+- Star CSpace -+- Lit nl -+- Star CSpace
  -+- Lit (py "print(")
  -+- Group (Plus not_rparen)
  -+- Lit (py ")")
  -+- Star CSpace -+- Lit nl -+- Star CSpace
  -+- Lit (py "end").

(** r'^\s*print\(string\.format\(Q(Session|Quality|Loading|Migrating|Test session)'
    where Q stands for the double quote character. *)
Definition pattern5 : regex :=
  Bol -+- Star CSpace
  -+- Lit (py "print(string.format(" ++ dq)
  -+- Group (Alt (Lit (py "Session"))
            (Alt (Lit (py "Quality"))
            (Alt (Lit (py "Loading"))
            (Alt (Lit (py "Migrating"))
                 (Lit (py "Test session")))))).

(** r'^\s*print\(Q(Session deleted|Sessions cleared|No sessions)'
    where Q stands for the double quote character. *)
Definition pattern6 : regex :=
  Bol -+- Star CSpace
  -+- Lit (py "print(" ++ dq)
  -+- Group (Alt (Lit (py "Session deleted"))
            (Alt (Lit (py "Sessions cleared"))
                 (Lit (py "No sessions")))).

(** r'addon:Debug(\1)' *)
Definition debug_call : list titem :=
  [TLit (py "addon:Debug("); TGroup1; TLit (py ")")].

(** r'    addon:Debug(Q', Q the double quote character. *)
Definition debug_head : list titem :=
  [TLit (py "    addon:Debug(" ++ dq)].

(** r'    addon:Info(Q', Q the double quote character. *)
Definition info_head : list titem :=
  [TLit (py "    addon:Info(" ++ dq)].

Definition rule1 : str -> str := sub pattern1 debug_call.
Definition rule2 : str -> str := sub pattern2 debug_call.
Definition rule3 : str -> str := sub pattern3 debug_call.
Definition rule4 : str -> str := sub pattern4 debug_call.
Definition rule5 : str -> str := sub pattern5 debug_head.
Definition rule6 : str -> str := sub pattern6 info_head.

(** The body of [fix_logging] between the read and the write: [content] is
    rebound six times, each rule reading the previous rule's result. *)
Definition fix_logging_text (content : str) : str :=
  let content := rule1 content in
  let content := rule2 content in
  let content := rule3 content in
  let content := rule4 content in
  let content := rule5 content in
  let content := rule6 content in
  content.

(** The same six substitutions resumed inside a text, away from a line
    start: what the rewrite does to the text that follows a match. *)
Definition fix_logging_from (content : str) : str :=
  let content := sub_at pattern1 debug_call false content in
  let content := sub_at pattern2 debug_call false content in
  let content := sub_at pattern3 debug_call false content in
  let content := sub_at pattern4 debug_call false content in
  let content := sub_at pattern5 debug_head false content in
  let content := sub_at pattern6 info_head false content in
  content.

(** The six patterns, for statements about all of them. *)
Definition patterns : list regex :=
  [pattern1; pattern2; pattern3; pattern4; pattern5; pattern6].

(** ** The script: files, standard output, exceptions *)

Module Script.

(** A file holds its text (as [f.read()] returns it in text mode) and the
    permissions [open] checks. *)
Record file : Type := File {
  data : str;
  readable : bool;
  writable : bool
}.

Inductive mode : Type := R | W.

(** What the process did to the outside world, oldest first. *)
Inductive event : Type :=
  | EOpen (path : string) (m : mode)        (* open(path, m) was called *)
  | ERead (path : string)                   (* f.read() *)
  | EWrite (path : string) (text : str).    (* f.write(text) *)

Inductive exn : Type :=
  | FileNotFoundError (path : string)
  | PermissionError (path : string)
  | IndexError.

Record world : Type := World {
  fs : gmap string file;
  stdout : list string;      (* one entry per print call *)
  trace : list event
}.

Inductive outcome (A : Type) : Type :=
  | Done (a : A)
  | Raised (e : exn).
Arguments Done {A} a.
Arguments Raised {A} e.

(** Computations that read and change the world and may raise. *)
Definition io (A : Type) : Type := world -> outcome A * world.

Definition ret {A} (a : A) : io A := fun w => (Done a, w).

Definition raise {A} (e : exn) : io A := fun w => (Raised e, w).

Definition bind {A B} (m : io A) (k : A -> io B) : io B :=
  fun w =>
    match m w with
    | (Done a, w') => k a w'
    | (Raised e, w') => (Raised e, w')
    end.

Notation "x <- m ;; k" := (bind m (fun x => k))
  (at level 100, m at next level, right associativity).
Notation "m ;;; k" := (bind m (fun _ => k))
  (at level 100, right associativity).

Definition log (e : event) : io unit :=
  fun w => (Done tt, World (fs w) (stdout w) (trace w ++ [e])).

Definition print (line : string) : io unit :=
  fun w => (Done tt, World (fs w) (stdout w ++ [line]) (trace w)).

Definition lookup_file (path : string) : io (option file) :=
  fun w => (Done (fs w !! path), w).

Definition store (path : string) (f : file) : io unit :=
  fun w => (Done tt, World (<[path := f]> (fs w)) (stdout w) (trace w)).

(** [with open(path, 'r') as f: content = f.read()].  Two failures of the
    read are modelled, the missing file and the refused permission; a file
    in the map is a regular file whose bytes decode, [data] being the text
    [f.read()] returns. *)
Definition read_text (path : string) : io str :=
  log (EOpen path R) ;;;
  o <- lookup_file path ;;
  match o with
  | None => raise (FileNotFoundError path)
  | Some f =>
      if readable f
      then log (ERead path) ;;; ret (data f)
      else raise (PermissionError path)
  end.

(** [with open(path, 'w') as f: f.write(content)]: opening for writing
    truncates an existing file and creates a missing one. *)
Definition write_text (path : string) (content : str) : io unit :=
  log (EOpen path W) ;;;
  o <- lookup_file path ;;
  match o with
  | Some f =>
      if writable f
      then store path (File [] (readable f) true) ;;;
           log (EWrite path content) ;;;
           store path (File content (readable f) true)
      else raise (PermissionError path)
  | None =>
      store path (File [] true true) ;;;
      log (EWrite path content) ;;;
      store path (File content true true)
  end.

Definition fix_logging (filename : string) : io unit :=
  content <- read_text filename ;;
  let content := fix_logging_text content in
  write_text filename content ;;;
  print ("Fixed " +:+ filename).

Definition usage : string := "Usage: python fix_logging.py <filename>".

(** The [__main__] block; [argv] is [sys.argv]. *)
Definition main (argv : list string) : io unit :=
  if (1 <? length argv)%nat
  then match argv !! 1%nat with
       | Some a => fix_logging a
       | None => raise IndexError
       end
  else print usage.

End Script.

(** ** Texts used in the statements *)

(** The head of a one-line guard around a plain print, and around a
    formatted print. *)
Definition guard_print : str := py "if addon.DEBUG then print(".
Definition guard_format : str := py "if addon.DEBUG then print(string.format(".

(** [if addon.DEBUG then print(<args>) end] *)
Definition plain_guard (args : str) : str :=
  guard_print ++ args ++ py ") end".

(** [if addon.DEBUG then print(string.format(<args>)) end] *)
Definition format_guard (args : str) : str :=
  guard_format ++ args ++ py ")) end".

(** [addon:Debug(<args>)] *)
Definition debug_of (args : str) : str :=
  py "addon:Debug(" ++ args ++ py ")".

(** The head of a standalone print whose string starts right after it. *)
Definition print_head : str := py "print(" ++ dq.
Definition format_head : str := py "print(string.format(" ++ dq.

(** The prefix words of rule 5 and of rule 6. *)
Definition debug_words : list str :=
  [py "Session"; py "Quality"; py "Loading"; py "Migrating"; py "Test session"].
Definition info_words : list str :=
  [py "Session deleted"; py "Sessions cleared"; py "No sessions"].

(** The spec's example scenarios 4 and 5 and 1. *)
Definition session_deleted_line : str :=
  format_head ++ py "Session deleted: %s" ++ dq ++ py ", name))".
Definition no_sessions_line : str :=
  print_head ++ py "No sessions found" ++ dq ++ py ")".
Definition loading_args : str := dq ++ py "Loading %s" ++ dq ++ py ", name".

(** A guard whose argument list holds the head of another guard. *)
Definition guard_in_guard : str :=
  py "if addon.DEBUG then print(if addon.DEBUG then print(x) end end".

(** ** Auxiliary notions for the statements *)

(** Whether the position after the text [m] is at the beginning of a line,
    [b] telling it for the position before [m]. *)
Definition bol_after (b : bool) (m : str) : bool :=
  match last m with
  | Some c => c =? LF
  | None => b
  end.

(** The number of occurrences of a character in a text. *)
Definition occ (c : char) (s : str) : nat := count_occ N.eq_dec s c.

(** A lower bound on the occurrences of [c] in any text [r] matches. *)
Fixpoint min_occ (c : char) (r : regex) : nat :=
  match r with
  | Lit l => occ c l
  | Bol | Star _ | Plus _ => 0
  | Alt r1 r2 => min (min_occ c r1) (min_occ c r2)
  | Cat r1 r2 => min_occ c r1 + min_occ c r2
  | Group r1 => min_occ c r1
  end.

(** Where a greedy repetition of class [k] has to stop. *)
Definition stops (k : cclass) (s : str) : Prop :=
  match s with
  | [] => True
  | c :: _ => in_class k c = false
  end.

(** A state whose next character belongs to class [k]. *)
Definition starts_in (k : cclass) (st : mstate) : Prop :=
  match rest st with
  | [] => False
  | c :: _ => in_class k c = true
  end.

(** The literal [l] and the text [s] differ at a position both have: [l]
    cannot match at the head of [s], whatever follows [s]. *)
Fixpoint lit_clash (l s : str) : bool :=
  match l, s with
  | a :: l', c :: s' => if c =? a then lit_clash l' s' else true
  | _, _ => false
  end.

(** [l] clashes with [pre] at every position of [pre]. *)
Fixpoint clash_all (l pre : str) : bool :=
  match pre with
  | [] => true
  | _ :: pre' => lit_clash l pre && clash_all l pre'
  end.

(** Does the text [s] begin with [l]; does [l] occur in [s] (Python's
    [l in s])? *)
Fixpoint starts_with (l s : str) : bool :=
  match l, s with
  | [], _ => true
  | a :: l', c :: s' => (c =? a) && starts_with l' s'
  | _ :: _, [] => false
  end.

Fixpoint contains (l s : str) : bool :=
  starts_with l s ||
  match s with
  | [] => false
  | _ :: s' => contains l s'
  end.

(** Every text [r] matches has [l] inside one of its literals. *)
Fixpoint needs (l : str) (r : regex) : bool :=
  match r with
  | Lit l' => contains l l'
  | Bol | Star _ | Plus _ => false
  | Alt r1 r2 => needs l r1 && needs l r2
  | Cat r1 r2 => needs l r1 || needs l r2
  | Group r1 => needs l r1
  end.

(** Lower bounds on the length of a match: of the whole match, and of the
    part of it outside the capturing group. *)
Fixpoint min_len (r : regex) : nat :=
  match r with
  | Lit l => length l
  | Bol | Star _ => 0
  | Plus _ => 1
  | Alt r1 r2 => min (min_len r1) (min_len r2)
  | Cat r1 r2 => min_len r1 + min_len r2
  | Group r1 => min_len r1
  end.

Fixpoint out_len (r : regex) : nat :=
  match r with
  | Lit l => length l
  | Bol | Star _ | Plus _ | Group _ => 0
  | Alt r1 r2 => min (out_len r1) (out_len r2)
  | Cat r1 r2 => out_len r1 + out_len r2
  end.

Definition glen (g : option str) : nat := length (default [] g).

(** A run of white space with at least one line feed: what [\s*\n\s*]
    matches in front of a character that is not white space. *)
Definition blank_break (ws : str) : Prop :=
  Forall (fun c => is_space c = true) ws /\ In LF ws.

(** The multi-line guards of rules 3 and 4, with the white space [w1]
    after [then] and [w2] before [end]. *)
Definition format_block (w1 args w2 : str) : str :=
  py "if addon.DEBUG then" ++ w1 ++ py "print(string.format(" ++ args
  ++ py "))" ++ w2 ++ py "end".

Definition plain_block (w1 args w2 : str) : str :=
  py "if addon.DEBUG then" ++ w1 ++ py "print(" ++ args
  ++ py ")" ++ w2 ++ py "end".

(** ** Texts made of lines

    The opener of a guard and the head of a print call, and a text cut in
    lines of the kinds the rules know: a line is the white space in front
    of it (blank lines included) and then an inert text, a one-line guard,
    a multi-line guard, or a standalone print that rule 5 or rule 6
    matches. *)
Definition opener : str := py "if addon.DEBUG then".
Definition print_call : str := py "print(".

Inductive line : Type :=
  | Inert (w body : str)
  | PlainGuard (w a : str)
  | FormatGuard (w a : str)
  | PlainBlock (w w1 a w2 : str)
  | FormatBlock (w w1 a w2 : str)
  | InfoPrint (w W tail : str)
  | DebugPrint (w W tail : str).

Definition render (l : line) : str :=
  match l with
  | Inert w body => w ++ body
  | PlainGuard w a => w ++ plain_guard a
  | FormatGuard w a => w ++ format_guard a
  | PlainBlock w w1 a w2 => w ++ plain_block w1 a w2
  | FormatBlock w w1 a w2 => w ++ format_block w1 a w2
  | InfoPrint w W tail => w ++ print_head ++ W ++ tail
  | DebugPrint w W tail => w ++ format_head ++ W ++ tail
  end.

(** The text of a list of lines, each ended by a line feed. *)
Definition text_of (ls : list line) : str :=
  flat_map (fun l => render l ++ nl) ls.

Definition blank (w : str) : Prop := Forall (fun c => is_space c = true) w.

(** A text on one line in which neither [print(] nor the guard opener
    occurs. *)
Definition quiet (x : str) : Prop :=
  ~ In LF x /\ contains print_call x = false /\ contains opener x = false.

(** Arguments of a guard: not empty, on one line, without parenthesis and
    without the guard opener. *)
Definition clean_args (a : str) : Prop :=
  a <> [] /\ ~ In LPAREN a /\ ~ In RPAREN a /\ ~ In LF a
  /\ contains opener a = false.

Definition valid (l : line) : Prop :=
  match l with
  | Inert w body =>
      blank w /\ (exists c rest, body = c :: rest /\ is_space c = false)
      /\ quiet body
  | PlainGuard w a | FormatGuard w a =>
      blank w /\ clean_args a
  | PlainBlock w w1 a w2 | FormatBlock w w1 a w2 =>
      blank w /\ blank_break w1 /\ blank_break w2 /\ clean_args a
  | InfoPrint w W tail => blank w /\ In W info_words /\ quiet tail
  | DebugPrint w W tail => blank w /\ In W debug_words /\ quiet tail
  end.

(** What the rewrite makes of a line. *)
Definition settle (l : line) : line :=
  match l with
  | Inert w body => Inert w body
  | PlainGuard w a | FormatGuard w a => Inert w (debug_of a)
  | PlainBlock w _ a _ | FormatBlock w _ a _ => Inert w (debug_of a)
  | InfoPrint w W tail => Inert (py "    ") (py "addon:Info(" ++ dq ++ tail)
  | DebugPrint w W tail => Inert (py "    ") (py "addon:Debug(" ++ dq ++ tail)
  end.

(** What each rule makes of a line: rules 1 to 4 settle the guards of
    their kind, rule 5 and rule 6 their prints. *)
Definition step (k : nat) (l : line) : line :=
  match k, l with
  | 1%nat, FormatGuard w a => Inert w (debug_of a)
  | 2%nat, PlainGuard w a => Inert w (debug_of a)
  | 3%nat, FormatBlock w _ a _ => Inert w (debug_of a)
  | 4%nat, PlainBlock w _ a _ => Inert w (debug_of a)
  | 5%nat, DebugPrint w W tail =>
      Inert (py "    ") (py "addon:Debug(" ++ dq ++ tail)
  | 6%nat, InfoPrint w W tail =>
      Inert (py "    ") (py "addon:Info(" ++ dq ++ tail)
  | _, _ => l
  end.

(** The lines rule [k] can meet: valid ones, without the kinds that an
    earlier rule has settled. *)
Definition before (k : nat) (l : line) : Prop :=
  valid l /\
  match l with
  | FormatGuard _ _ => (k <= 1)%nat
  | PlainGuard _ _ => (k <= 2)%nat
  | FormatBlock _ _ _ _ => (k <= 3)%nat
  | PlainBlock _ _ _ _ => (k <= 4)%nat
  | DebugPrint _ _ _ => (k <= 5)%nat
  | _ => True
  end.

(** A text with a line of each kind. *)
Definition sample_lines : list line :=
  [Inert [] (py "local n = foo(1)");
   FormatGuard (nl ++ py "  ") loading_args;
   PlainGuard (py "  ") (dq ++ py "simple message" ++ dq);
   FormatBlock (py "  ") (nl ++ py "    ") loading_args (nl ++ py "  ");
   PlainBlock [] nl (py "x, y") (py " " ++ nl);
   InfoPrint (nl ++ nl) (py "No sessions") (py " found" ++ dq ++ py ")");
   DebugPrint [] (py "Session") (py " deleted: %s" ++ dq ++ py ", name))");
   Inert [] (py "return n")].

(** * Facts about the matcher *)

Section Matcher.

Lemma bol_after_nil b : bol_after b [] = b.
Proof. reflexivity. Qed.

Lemma bol_after_cons b c m : bol_after b (c :: m) = bol_after (c =? LF) m.
Proof.
  unfold bol_after. destruct m as [|d m]; [reflexivity|].
  rewrite !last_cons. destruct (last m); reflexivity.
Qed.

Lemma bol_after_app b m1 m2 :
  bol_after b (m1 ++ m2) = bol_after (bol_after b m1) m2.
Proof.
  revert b. induction m1 as [|c m1 IH]; intros b; [reflexivity|].
  simpl. rewrite !bol_after_cons. apply IH.
Qed.

Lemma lit_match_app l b s : lit_match l b (l ++ s) = Some (bol_after b l, s).
Proof.
  revert b. induction l as [|a l IH]; intros b; [reflexivity|].
  simpl. rewrite N.eqb_refl, IH, bol_after_cons. reflexivity.
Qed.

Lemma lit_match_sound l b s b' s' :
  lit_match l b s = Some (b', s') -> s = l ++ s' /\ b' = bol_after b l.
Proof.
  revert b s. induction l as [|a l IH]; intros b s H; simpl in H.
  - inversion H; subst. split; reflexivity.
  - destruct s as [|c s]; [discriminate|].
    destruct (N.eqb_spec c a) as [->|]; [|discriminate].
    apply IH in H as [-> ->]. rewrite bol_after_cons. split; reflexivity.
Qed.

(** A literal fails on a text that starts with another character. *)
Lemma lit_match_head_ne a l b c s : c <> a -> lit_match (a :: l) b (c :: s) = None.
Proof.
  intros H. simpl. destruct (N.eqb_spec c a); [contradiction|reflexivity].
Qed.

Lemma star_states_sound k b s g st :
  In st (star_states k b s g) ->
  exists m, s = m ++ rest st /\ Forall (fun c => in_class k c = true) m
            /\ grp st = g /\ bol st = bol_after b m.
Proof.
  revert b. induction s as [|c s IH]; intros b H; simpl in H.
  - destruct H as [<-|[]]. exists []. repeat split; constructor.
  - destruct (in_class k c) eqn:Hc.
    + apply in_app_or in H as [H|[<-|[]]].
      * apply IH in H as (m & -> & Hm & Hg & Hb).
        exists (c :: m). rewrite bol_after_cons.
        repeat split; try assumption. constructor; assumption.
      * exists []. repeat split; constructor.
    + destruct H as [<-|[]]. exists []. repeat split; constructor.
Qed.

(** Over a run [a] of class characters followed by a stop, the first way
    of stopping is after the whole run; every other way stops earlier, in
    front of a class character. *)
Lemma star_states_app k b a s g :
  Forall (fun c => in_class k c = true) a -> stops k s ->
  exists tl, star_states k b (a ++ s) g = MState (bol_after b a) s g :: tl
             /\ Forall (starts_in k) tl.
Proof.
  intros Ha Hs. revert b. induction Ha as [|c a Hc Ha IH]; intros b.
  - exists []. split; [|constructor].
    destruct s as [|c s]; simpl in *; [reflexivity|]. rewrite Hs. reflexivity.
  - destruct (IH (c =? LF)) as (tl & E & Htl).
    exists (tl ++ [MState b (c :: a ++ s) g]). split.
    + simpl. rewrite Hc, E, bol_after_cons. reflexivity.
    + apply Forall_app. split; [assumption|].
      constructor; [|constructor]. unfold starts_in. simpl. assumption.
Qed.

Lemma head_In {A} (l : list A) x : head l = Some x -> In x l.
Proof. destruct l; simpl; [discriminate|]. intros [= ->]. left. reflexivity. Qed.

Lemma flat_map_dead {A B} (f : A -> list B) x tl :
  Forall (fun y => f y = []) tl -> flat_map f (x :: tl) = f x.
Proof.
  intros H. simpl. induction H as [|y tl Hy _ IH]; simpl.
  - apply app_nil_r.
  - rewrite Hy. exact IH.
Qed.

Lemma occ_app c s1 s2 : occ c (s1 ++ s2) = (occ c s1 + occ c s2)%nat.
Proof. apply count_occ_app. Qed.

Lemma consumed_app m s : consumed (m ++ s) s = m.
Proof.
  unfold consumed. rewrite length_app.
  replace (length m + length s - length s)%nat with (length m) by lia.
  apply take_app_length.
Qed.

(** Every way of matching consumes a prefix of the text, and that prefix
    has at least [min_occ c r] occurrences of [c]. *)
Lemma rmatch_sound c r st st' :
  In st' (rmatch r st) ->
  exists m, rest st = m ++ rest st' /\ (min_occ c r <= occ c m)%nat.
Proof.
  revert st st'. induction r as [l| |k|k|r1 IH1 r2 IH2|r1 IH1 r2 IH2|r1 IH1];
    intros st st' H; simpl in H.
  - destruct (lit_match l (bol st) (rest st)) as [[b s]|] eqn:E; [|destruct H].
    destruct H as [<-|[]]. apply lit_match_sound in E as [E _].
    exists l. split; [exact E|]. simpl. lia.
  - destruct (bol st); [|destruct H]. destruct H as [<-|[]].
    exists []. split; [reflexivity|]. simpl. lia.
  - apply star_states_sound in H as (m & E & _). exists m. split; [exact E|].
    simpl. lia.
  - destruct (rest st) as [|d s] eqn:Es; [destruct H|].
    destruct (in_class k d); [|destruct H].
    apply star_states_sound in H as (m & E & _). exists (d :: m).
    split; [rewrite E; reflexivity|]. simpl. lia.
  - apply in_app_or in H as [H|H].
    + apply IH1 in H as (m & E & Hm). exists m. split; [exact E|]. simpl. lia.
    + apply IH2 in H as (m & E & Hm). exists m. split; [exact E|]. simpl. lia.
  - apply in_flat_map in H as (st1 & H1 & H2).
    apply IH1 in H1 as (m1 & E1 & Hm1). apply IH2 in H2 as (m2 & E2 & Hm2).
    exists (m1 ++ m2). split.
    + rewrite E1, E2, app_assoc. reflexivity.
    + rewrite occ_app. simpl. lia.
  - apply in_map_iff in H as (st1 & <- & H1).
    apply IH1 in H1 as (m & E & Hm). exists m. split; [exact E|]. exact Hm.
Qed.

(** [^] lets the match go on at the beginning of a line only. *)
Lemma rmatch_bol r st :
  rmatch (Bol -+- r) st = if bol st then rmatch r st else [].
Proof. simpl. destruct (bol st); simpl; [apply app_nil_r|reflexivity]. Qed.

Lemma rmatch_lit_app l r b s g :
  rmatch (Lit l -+- r) (MState b (l ++ s) g)
  = rmatch r (MState (bol_after b l) s g).
Proof. simpl. rewrite lit_match_app. simpl. apply app_nil_r. Qed.

(** A literal whose first character is outside class [k] fails in front of
    a character of [k]. *)
Lemma lit_dead k x l st :
  in_class k x = false -> starts_in k st -> rmatch (Lit (x :: l)) st = [].
Proof.
  unfold starts_in. intros Hx Hst. simpl.
  destruct (rest st) as [|d s]; [reflexivity|].
  destruct (N.eqb_spec d x) as [->|]; [congruence|reflexivity].
Qed.

Lemma lit_cat_dead k x l r st :
  in_class k x = false -> starts_in k st -> rmatch (Lit (x :: l) -+- r) st = [].
Proof.
  intros Hx Hst. change (flat_map (rmatch r) (rmatch (Lit (x :: l)) st) = []).
  rewrite (lit_dead k) by assumption. reflexivity.
Qed.

(** Greedy [k*] in front of a continuation that cannot start with a
    character of [k]: only the longest run can lead to a match. *)
Lemma rmatch_star_cat k r b a s g :
  Forall (fun c => in_class k c = true) a -> stops k s ->
  (forall st, starts_in k st -> rmatch r st = []) ->
  rmatch (Star k -+- r) (MState b (a ++ s) g)
  = rmatch r (MState (bol_after b a) s g).
Proof.
  intros Ha Hs Hdead. simpl.
  destruct (star_states_app k b a s g Ha Hs) as (tl & -> & Htl).
  apply flat_map_dead. eapply Forall_impl; [exact Htl|]. exact Hdead.
Qed.

(** The same for a captured [(k+)]: the group holds the whole run. *)
Lemma rmatch_plus_group_cat k r b a s g :
  a <> [] -> Forall (fun c => in_class k c = true) a -> stops k s ->
  (forall st, starts_in k st -> rmatch r st = []) ->
  rmatch (Group (Plus k) -+- r) (MState b (a ++ s) g)
  = rmatch r (MState (bol_after b a) s (Some a)).
Proof.
  intros Hne Ha Hs Hdead. destruct a as [|d a]; [contradiction|].
  inversion Ha as [|? ? Hd Ha']; subst.
  simpl. rewrite Hd.
  destruct (star_states_app k (d =? LF) a s g Ha' Hs) as (tl & -> & Htl).
  simpl map. rewrite flat_map_dead.
  - change (d :: a ++ s) with ((d :: a) ++ s).
    rewrite consumed_app, bol_after_cons. reflexivity.
  - apply Forall_map. eapply Forall_impl; [exact Htl|].
    intros st Hst. apply Hdead. exact Hst.
Qed.

Lemma rmatch_plus_group_empty k r b s g :
  stops k s -> rmatch (Group (Plus k) -+- r) (MState b s g) = [].
Proof.
  intros Hs. simpl. destruct s as [|c s]; [reflexivity|].
  simpl in Hs. rewrite Hs. reflexivity.
Qed.

(** A group around a pattern that captures nothing itself records the text
    its first match consumed. *)
Lemma group_head r b m s g :
  head (rmatch r (MState b (m ++ s) g)) = Some (MState (bol_after b m) s g) ->
  head (rmatch (Group r) (MState b (m ++ s) g))
  = Some (MState (bol_after b m) s (Some m)).
Proof.
  intros H. simpl. destruct (rmatch r (MState b (m ++ s) g)) as [|st l];
    [discriminate|].
  simpl in H. injection H as ->. simpl. rewrite consumed_app. reflexivity.
Qed.

(** What a match of a guard pattern looks like: the head [G], a non-empty
    run free of [c], then [E]. *)
Lemma guard_sound G c E st0 st :
  In st (rmatch (Lit G -+- Group (Plus (CNot c)) -+- Lit E) st0) ->
  exists a, a <> [] /\ ~ In c a /\ rest st0 = G ++ a ++ E ++ rest st
            /\ grp st = Some a.
Proof.
  intros H. apply in_flat_map in H as (st1 & H1 & H).
  apply in_flat_map in H as (st2 & H2 & H3).
  simpl in H1.
  destruct (lit_match G (bol st0) (rest st0)) as [[b1 s1]|] eqn:E1;
    [|destruct H1].
  destruct H1 as [<-|[]]. apply lit_match_sound in E1 as [E1 _].
  apply in_map_iff in H2 as (st2' & <- & H2). simpl in H2, H3.
  destruct s1 as [|d s1]; [destruct H2|].
  destruct (negb (d =? c)) eqn:Hd; [|destruct H2].
  apply star_states_sound in H2 as (m & Em & Hm & _).
  destruct (lit_match E (bol st2') (rest st2')) as [[b3 s3]|] eqn:E3;
    [|destruct H3].
  destruct H3 as [<-|[]]. apply lit_match_sound in E3 as [E3 _]. simpl.
  exists (d :: m). repeat split.
  - discriminate.
  - intros [->|Hin].
    + rewrite N.eqb_refl in Hd. discriminate.
    + rewrite List.Forall_forall in Hm. apply Hm in Hin. simpl in Hin.
      rewrite N.eqb_refl in Hin. discriminate.
  - rewrite E1, Em, E3. reflexivity.
  - f_equal. rewrite Em. change (d :: m ++ rest st2') with ((d :: m) ++ rest st2').
    apply consumed_app.
Qed.

End Matcher.

(** * Facts about the substitution scan *)

Section Scan.

Variables (r : regex) (t : list titem).

Lemma sub_scan_skip b m s :
  sub_scan r t b (m ++ s) (length m) = sub_at r t (bol_after b m) s.
Proof.
  revert b. induction m as [|c m IH]; intros b; [reflexivity|].
  simpl. rewrite IH, bol_after_cons. reflexivity.
Qed.

(** A match of the non-empty text [m] is replaced by the template, and the
    scan resumes right after [m]. *)
Lemma sub_at_match b m s st :
  re_match r b (m ++ s) = Some st -> rest st = s -> m <> [] ->
  sub_at r t b (m ++ s) = expand t (grp st) ++ sub_at r t (bol_after b m) s.
Proof.
  intros E Hs Hm. destruct m as [|c m]; [contradiction|].
  unfold sub_at at 1. simpl. simpl in E. rewrite E, Hs. f_equal.
  rewrite length_app.
  replace (S (length m + length s) - length s)%nat with (S (length m)) by lia.
  rewrite sub_scan_skip, bol_after_cons. reflexivity.
Qed.

(** Without a match at the current position the character is copied. *)
Lemma sub_at_nomatch b c s :
  re_match r b (c :: s) = None ->
  sub_at r t b (c :: s) = c :: sub_at r t (c =? LF) s.
Proof. intros E. unfold sub_at. simpl. rewrite E. reflexivity. Qed.

Lemma sub_at_nil b : re_match r b [] = None -> sub_at r t b [] = [].
Proof. intros E. unfold sub_at. simpl. rewrite E. reflexivity. Qed.

(** A prefix none of whose positions starts a match is copied. *)
Lemma sub_at_skip_prefix b pre s :
  (forall u c v, pre = u ++ c :: v ->
                 re_match r (bol_after b u) (c :: v ++ s) = None) ->
  sub_at r t b (pre ++ s) = pre ++ sub_at r t (bol_after b pre) s.
Proof.
  revert b. induction pre as [|c pre IH]; intros b H; [reflexivity|].
  simpl. rewrite sub_at_nomatch by (apply (H [] c pre); reflexivity).
  rewrite bol_after_cons. f_equal. apply IH.
  intros u d v ->. specialize (H (c :: u) d v eq_refl).
  rewrite bol_after_cons in H. exact H.
Qed.

(** A pattern that matches nowhere leaves the text as it is. *)
Lemma sub_at_no_search b s : search_at r b s = false -> sub_at r t b s = s.
Proof.
  revert b. induction s as [|c s IH]; intros b H; simpl in H.
  - destruct (re_match r b []) eqn:E; [discriminate|]. apply sub_at_nil, E.
  - destruct (re_match r b (c :: s)) eqn:E; [discriminate|].
    rewrite sub_at_nomatch by exact E. f_equal. apply IH, H.
Qed.

(** A successful search exhibits a position and a match there. *)
Lemma search_at_true b s :
  search_at r b s = true ->
  exists pre s0 st, s = pre ++ s0 /\ re_match r (bol_after b pre) s0 = Some st.
Proof.
  revert b. induction s as [|c s IH]; intros b H; simpl in H.
  - destruct (re_match r b []) as [st|] eqn:E; [|discriminate].
    exists [], [], st. split; [reflexivity|exact E].
  - destruct (re_match r b (c :: s)) as [st|] eqn:E.
    + exists [], (c :: s), st. split; [reflexivity|exact E].
    + apply IH in H as (pre & s0 & st & -> & E').
      exists (c :: pre), s0, st. split; [reflexivity|].
      rewrite bol_after_cons. exact E'.
Qed.

(** A text with fewer occurrences of [c] than every match needs has no
    match. *)
Lemma search_at_occ c b s :
  (occ c s < min_occ c r)%nat -> search_at r b s = false.
Proof.
  intros H. destruct (search_at r b s) eqn:E; [|reflexivity].
  apply search_at_true in E as (pre & s0 & st & -> & E).
  apply head_In, (rmatch_sound c) in E as (m & E & Hm). simpl in E.
  rewrite E, !occ_app in H. lia.
Qed.

End Scan.

(** Each of the six patterns holds an opening parenthesis, so none of them
    matches the empty text: the scan never meets an empty match. *)
Lemma patterns_consume p b s st :
  In p patterns -> re_match p b s = Some st ->
  (length (rest st) < length s)%nat.
Proof.
  intros Hp H. apply head_In, (rmatch_sound LPAREN) in H as (m & E & Hm).
  simpl in E. rewrite E, length_app.
  assert (1 <= min_occ LPAREN p)%nat as H1.
  { simpl in Hp.
    destruct Hp as [<-|[<-|[<-|[<-|[<-|[<-|[]]]]]]]; vm_compute; lia. }
  destruct m as [|c m]; [simpl in Hm; lia|]. simpl. lia.
Qed.

Lemma patterns_consume_witness :
  (length (@nil N) < length (plain_guard (py "x")))%nat.
Proof.
  apply (patterns_consume pattern2 true (plain_guard (py "x"))
           (MState false [] (Some (py "x")))).
  - right. left. reflexivity.
  - vm_compute. reflexivity.
Defined.

(** * Guards, line starts and unique characters *)

Section Guards.

Lemma notin_class c a :
  ~ In c a -> Forall (fun d => in_class (CNot c) d = true) a.
Proof.
  intros H. apply List.Forall_forall. intros d Hd. simpl.
  destruct (N.eqb_spec d c) as [->|]; [contradiction|reflexivity].
Qed.

Lemma occ_notin c s : ~ In c s -> occ c s = 0%nat.
Proof. apply count_occ_not_In. Qed.

(** A text is split in one way only around the first occurrence of a
    character. *)
Lemma split_unique (c : char) l1 r1 l2 r2 :
  ~ In c l1 -> ~ In c l2 -> l1 ++ c :: r1 = l2 ++ c :: r2 ->
  l1 = l2 /\ r1 = r2.
Proof.
  revert l2. induction l1 as [|x l1 IH]; intros [|y l2] H1 H2 E; simpl in E.
  - injection E as ->. split; reflexivity.
  - injection E as -> _. exfalso. apply H2. left. reflexivity.
  - injection E as -> _. exfalso. apply H1. left. reflexivity.
  - injection E as -> E. apply IH in E as [-> ->].
    + split; reflexivity.
    + intros H. apply H1. right. exact H.
    + intros H. apply H2. right. exact H.
Qed.

Lemma notin_app (c : char) l1 l2 :
  ~ In c l1 -> ~ In c l2 -> ~ In c (l1 ++ l2).
Proof. rewrite in_app_iff. tauto. Qed.

Lemma notin_cons (c d : char) l : d <> c -> ~ In c l -> ~ In c (d :: l).
Proof. simpl. tauto. Qed.

Variables (G E : str) (c : char).

Let P : regex := Lit G -+- Group (Plus (CNot c)) -+- Lit (c :: E).

(** At a guard head, with a non-empty run [a] free of [c] followed by
    [c] and [E], the pattern matches and captures exactly [a]. *)
Lemma guard_hit b a s :
  a <> [] -> ~ In c a ->
  re_match P b (G ++ a ++ (c :: E) ++ s)
  = Some (MState (bol_after (c =? LF) E) s (Some a)).
Proof.
  intros Hne Ha. unfold re_match, P.
  rewrite rmatch_lit_app, rmatch_plus_group_cat.
  - simpl rmatch. rewrite N.eqb_refl, lit_match_app. reflexivity.
  - exact Hne.
  - apply notin_class, Ha.
  - simpl. rewrite N.eqb_refl. reflexivity.
  - intros st Hst. apply (lit_dead (CNot c)); [|exact Hst].
    simpl. rewrite N.eqb_refl. reflexivity.
Qed.

(** If what follows the first [c] is not [E], or the run is empty, the
    pattern does not match at the guard head. *)
Lemma guard_miss b a s :
  ~ In c a -> a = [] \/ (forall s', s <> E ++ s') ->
  re_match P b (G ++ a ++ c :: s) = None.
Proof.
  intros Ha Hor. unfold re_match, P. rewrite rmatch_lit_app.
  destruct a as [|d a].
  - simpl app. rewrite rmatch_plus_group_empty; [reflexivity|].
    simpl. rewrite N.eqb_refl. reflexivity.
  - destruct Hor as [Hor|Hs]; [discriminate|].
    rewrite rmatch_plus_group_cat.
    + simpl rmatch. rewrite N.eqb_refl.
      destruct (lit_match E (c =? LF) s) as [[b' s']|] eqn:EE; [|reflexivity].
      apply lit_match_sound in EE as [EE _]. exfalso. exact (Hs s' EE).
    + discriminate.
    + apply notin_class, Ha.
    + simpl. rewrite N.eqb_refl. reflexivity.
    + intros st Hst. apply (lit_dead (CNot c)); [|exact Hst].
      simpl. rewrite N.eqb_refl. reflexivity.
Qed.

(** The substitution at a guard: the template gets the run, and the scan
    goes on after [E]. *)
Lemma guard_sub t b a s :
  a <> [] -> ~ In c a ->
  sub_at P t b (G ++ a ++ (c :: E) ++ s)
  = expand t (Some a) ++ sub_at P t (bol_after (c =? LF) E) s.
Proof.
  intros Hne Ha.
  pose proof (guard_hit b a s Hne Ha) as H.
  replace (G ++ a ++ (c :: E) ++ s) with ((G ++ a ++ c :: E) ++ s) in *
    by (rewrite <- !app_assoc; reflexivity).
  rewrite (sub_at_match P t b _ s _ H eq_refl).
  - simpl grp. f_equal. f_equal.
    rewrite !bol_after_app, bol_after_cons. reflexivity.
  - destruct G; discriminate || (destruct a; [contradiction|discriminate]).
Qed.

(** Wherever the pattern matches in a text, the text has a [c] followed
    by [E]. *)
Lemma guard_search b T :
  search_at P b T = true ->
  exists pre a post,
    a <> [] /\ ~ In c a /\ T = pre ++ G ++ a ++ (c :: E) ++ post.
Proof.
  intros H. apply search_at_true in H as (pre & s0 & st & -> & H).
  apply head_In, guard_sound in H as (a & Hne & Ha & Es & _).
  simpl in Es. exists pre, a, (rest st). rewrite Es. repeat split; assumption.
Qed.

End Guards.

Section LineStarts.

Variable r : regex.

Lemma search_bol_inside s : ~ In LF s -> search_at (Bol -+- r) false s = false.
Proof.
  induction s as [|c s IH]; intros H.
  - reflexivity.
  - simpl. destruct (N.eqb_spec c LF) as [->|_].
    + exfalso. apply H. left. reflexivity.
    + apply IH. intros Hin. apply H. right. exact Hin.
Qed.

(** In a text without line feeds a pattern anchored by [^] can match at
    the start only. *)
Lemma search_bol b s :
  ~ In LF s -> re_match (Bol -+- r) b s = None ->
  search_at (Bol -+- r) b s = false.
Proof.
  intros H E. destruct s as [|c s].
  - simpl search_at. rewrite E. reflexivity.
  - simpl search_at. rewrite E. destruct (N.eqb_spec c LF) as [->|_].
    + exfalso. apply H. left. reflexivity.
    + apply search_bol_inside. intros Hin. apply H. right. exact Hin.
Qed.

End LineStarts.

(** * Copying text that cannot start a match *)

Section Skips.

Variable t : list titem.

Lemma lit_clash_none l s tail b :
  lit_clash l s = true -> lit_match l b (s ++ tail) = None.
Proof.
  revert s b. induction l as [|a l IH]; intros [|c s] b H; simpl in H;
    try discriminate.
  simpl. destruct (c =? a); [apply IH, H|reflexivity].
Qed.

Lemma lit_cat_clash l r b s tail g :
  lit_clash l s = true -> rmatch (Lit l -+- r) (MState b (s ++ tail) g) = [].
Proof. intros H. simpl. rewrite lit_clash_none by exact H. reflexivity. Qed.

(** A pattern that begins with a literal copies a text the literal clashes
    with at every position. *)
Lemma clash_skip l r b pre s :
  clash_all l pre = true ->
  sub_at (Lit l -+- r) t b (pre ++ s)
  = pre ++ sub_at (Lit l -+- r) t (bol_after b pre) s.
Proof.
  revert b. induction pre as [|c pre IH]; intros b H; [reflexivity|].
  simpl in H. apply andb_true_iff in H as [H1 H2].
  change ((c :: pre) ++ s) with (c :: pre ++ s).
  rewrite sub_at_nomatch.
  - rewrite IH, bol_after_cons by exact H2. reflexivity.
  - unfold re_match. change (c :: pre ++ s) with ((c :: pre) ++ s).
    rewrite lit_cat_clash by exact H1. reflexivity.
Qed.

(** A pattern that begins with a literal outside class [k] copies a run
    of characters of [k]. *)
Lemma class_run_skip k x l r b ws s :
  in_class k x = false -> Forall (fun c => in_class k c = true) ws ->
  sub_at (Lit (x :: l) -+- r) t b (ws ++ s)
  = ws ++ sub_at (Lit (x :: l) -+- r) t (bol_after b ws) s.
Proof.
  intros Hx Hws. apply sub_at_skip_prefix. intros u c v ->.
  unfold re_match. rewrite (lit_cat_dead k); [reflexivity|exact Hx|].
  unfold starts_in. simpl.
  apply Forall_app in Hws as [_ Hws]. inversion Hws; assumption.
Qed.

Lemma bol_after_no_LF b m : m <> [] -> ~ In LF m -> bol_after b m = false.
Proof.
  revert b. induction m as [|c m IH]; intros b Hne H; [contradiction|].
  rewrite bol_after_cons. destruct m as [|d m].
  - simpl. destruct (N.eqb_spec c LF) as [->|]; [|reflexivity].
    exfalso. apply H. left. reflexivity.
  - apply IH; [discriminate|]. intros Hin. apply H. right. exact Hin.
Qed.

Variables (k : cclass) (x : char) (F : str) (r : regex).

Let P : regex := Bol -+- Star k -+- Lit (x :: F) -+- r.

Hypothesis Hx : in_class k x = false.

Lemma anchored_dead st : starts_in k st -> rmatch (Lit (x :: F) -+- r) st = [].
Proof. apply lit_cat_dead, Hx. Qed.

(** The anchored pattern [^k*F...] fails in front of a run of [k] followed
    by a text [F] clashes with. *)
Lemma anchored_miss b a pre s :
  Forall (fun c => in_class k c = true) a -> stops k pre -> pre <> [] ->
  lit_clash (x :: F) pre = true ->
  re_match P b (a ++ pre ++ s) = None.
Proof.
  intros Ha Hst Hne Hcl. unfold re_match, P. rewrite rmatch_bol. simpl bol.
  destruct b; [|reflexivity].
  rewrite rmatch_star_cat.
  - rewrite lit_cat_clash by exact Hcl. reflexivity.
  - exact Ha.
  - destruct pre; [contradiction|exact Hst].
  - exact anchored_dead.
Qed.

(** It copies a run of [k] followed by a text without line feed that [F]
    clashes with. *)
Lemma anchored_skip b ws pre s :
  Forall (fun c => in_class k c = true) ws -> stops k pre -> pre <> [] ->
  lit_clash (x :: F) pre = true -> ~ In LF pre ->
  sub_at P t b (ws ++ pre ++ s) = ws ++ pre ++ sub_at P t false s.
Proof.
  intros Hws Hst Hne Hcl HLF.
  rewrite sub_at_skip_prefix.
  - f_equal. rewrite sub_at_skip_prefix.
    + rewrite (bol_after_no_LF _ pre) by assumption. reflexivity.
    + intros u c v E. destruct u as [|d u].
      * simpl in E. subst pre.
        apply (anchored_miss _ [] (c :: v) s); try assumption. constructor.
      * rewrite (bol_after_no_LF _ (d :: u)).
        -- unfold re_match, P. rewrite rmatch_bol. reflexivity.
        -- discriminate.
        -- intros Hin. apply HLF. rewrite E. apply in_or_app. left. exact Hin.
  - intros u c v ->.
    change (c :: v ++ pre ++ s) with ((c :: v) ++ pre ++ s).
    apply anchored_miss; try assumption.
    apply Forall_app in Hws as [_ Hws]. exact Hws.
Qed.

(** It matches a run of [k], the literal and the group's first alternative
    that fits, and the scan resumes after it with the group text dropped
    from or kept in the output as the template says. *)
Lemma anchored_hit A ws W s :
  Forall (fun c => in_class k c = true) ws ->
  (forall b, head (rmatch A (MState b (W ++ s) None))
             = Some (MState (bol_after b W) s None)) ->
  re_match (Bol -+- Star k -+- Lit (x :: F) -+- Group A) true
    (ws ++ (x :: F) ++ W ++ s)
  = Some (MState (bol_after (bol_after (x =? LF) F) W) s (Some W)).
Proof.
  intros Hws HA. unfold re_match. rewrite rmatch_bol. simpl bol.
  rewrite rmatch_star_cat.
  - rewrite rmatch_lit_app, bol_after_cons.
    exact (group_head A _ W s None (HA _)).
  - exact Hws.
  - simpl. exact Hx.
  - intros st Hst. apply (lit_cat_dead k); assumption.
Qed.

Lemma anchored_sub A ws W s :
  Forall (fun c => in_class k c = true) ws ->
  (forall b, head (rmatch A (MState b (W ++ s) None))
             = Some (MState (bol_after b W) s None)) ->
  W <> [] -> ~ In LF W ->
  sub_at (Bol -+- Star k -+- Lit (x :: F) -+- Group A) t true
    (ws ++ (x :: F) ++ W ++ s)
  = expand t (Some W)
    ++ sub_at (Bol -+- Star k -+- Lit (x :: F) -+- Group A) t false s.
Proof.
  intros Hws HA Hne HLF.
  pose proof (anchored_hit A ws W s Hws HA) as H.
  replace (ws ++ (x :: F) ++ W ++ s) with ((ws ++ (x :: F) ++ W) ++ s) in *
    by (rewrite <- !app_assoc; reflexivity).
  rewrite (sub_at_match _ t true _ s _ H eq_refl).
  - simpl grp. f_equal. f_equal.
    rewrite !bol_after_app. apply bol_after_no_LF; assumption.
  - destruct ws; discriminate.
Qed.

(** A guard rule (its pattern begins with the letter i) copies a run of
    white space followed by a text the guard head clashes with. *)
Lemma guard_rule_copies p l r' ws pre tail :
  p = Lit (105 :: l) -+- r' ->
  Forall (fun c => is_space c = true) ws ->
  clash_all (105 :: l) pre = true -> pre <> [] -> ~ In LF pre ->
  sub_at p t true (ws ++ pre ++ tail) = ws ++ pre ++ sub_at p t false tail.
Proof.
  intros -> Hws Hcl Hne HLF.
  rewrite (class_run_skip CSpace) by (exact Hws || reflexivity).
  rewrite clash_skip by exact Hcl.
  rewrite bol_after_no_LF by assumption. reflexivity.
Qed.

End Skips.

(** Absence of a character from a text built from known parts. *)
Ltac notin :=
  repeat first
    [ assumption
    | apply notin_app
    | apply notin_cons; [discriminate|]
    | solve [vm_compute; intuition discriminate] ].

(** * The script *)

Section ScriptFacts.

Import Script.

(** C7. Invoked without a path argument ([sys.argv] has at most the program
    name), the script prints the usage line and does nothing else: it
    returns normally, the file system is unchanged, and no file is opened,
    read or written (the trace of file operations is unchanged). *)
Theorem main_usage_no_file_access (argv : list string) (w : world) :
  (length argv <= 1)%nat ->
  main argv w = (Done tt, World (fs w) (stdout w ++ [usage]) (trace w)).
Proof.
  intros H. unfold main.
  destruct (Nat.ltb_spec 1 (length argv)) as [H1|_]; [lia|]. reflexivity.
Qed.

Lemma main_usage_no_file_access_witness :
  (length ["fix_logging.py"%string] <= 1)%nat /\
  main ["fix_logging.py"%string] (World ∅ [] [])
  = (Done tt, World ∅ [usage] []).
Proof.
  split; [simpl; lia|].
  apply (main_usage_no_file_access ["fix_logging.py"%string] (World ∅ [] [])).
  simpl. lia.
Defined.

(** C8. When the file at the path is missing, or exists but is not
    readable, [fix_logging] ends with the file-system exception raised by
    the read ([FileNotFoundError], [PermissionError]) and nothing catches
    it, in the function or in the [__main__] block; the only file
    operation is the failed attempt to open for reading (no read, no
    write), the file system is unchanged and nothing is printed. *)
Theorem read_failure_propagates (prog filename : string) (w : world) :
  (fs w !! filename = None \/
   exists f, fs w !! filename = Some f /\ readable f = false) ->
  exists e,
    (e = FileNotFoundError filename \/ e = PermissionError filename) /\
    fix_logging filename w
    = (Raised e, World (fs w) (stdout w) (trace w ++ [EOpen filename R])) /\
    main [prog; filename] w
    = (Raised e, World (fs w) (stdout w) (trace w ++ [EOpen filename R])).
Proof.
  intros [H|(f & H & Hr)].
  - exists (FileNotFoundError filename). split; [left; reflexivity|].
    unfold main, fix_logging, read_text, bind, log, lookup_file, raise.
    simpl. rewrite H. split; reflexivity.
  - exists (PermissionError filename). split; [right; reflexivity|].
    unfold main, fix_logging, read_text, bind, log, lookup_file, raise.
    simpl. rewrite H, Hr. split; reflexivity.
Qed.

Lemma read_failure_propagates_witness :
  exists e,
    (e = FileNotFoundError "Core.lua" \/ e = PermissionError "Core.lua") /\
    fix_logging "Core.lua" (World ∅ [] [])
    = (Raised e, World ∅ [] [EOpen "Core.lua" R]) /\
    main ["fix_logging.py"; "Core.lua"]%string (World ∅ [] [])
    = (Raised e, World ∅ [] [EOpen "Core.lua" R]).
Proof.
  apply (read_failure_propagates "fix_logging.py" "Core.lua" (World ∅ [] [])).
  left. simpl. apply lookup_empty.
Defined.

(** C9. Invoked with two or more arguments, the script does exactly what
    it does with the first one alone: it runs [fix_logging] on the first
    argument, and the further arguments change neither the outcome, nor
    the files, nor the output (no usage line, no error for them). *)
Theorem extra_arguments_ignored
    (prog a b : string) (more : list string) (w : world) :
  main (prog :: a :: b :: more) w = fix_logging a w /\
  main (prog :: a :: b :: more) w = main [prog; a] w.
Proof. split; reflexivity. Qed.

(** A successful run: the file is read, its rewritten text is written
    back in place, and the confirmation is printed. *)
Lemma fix_logging_success (filename : string) (w : world) (f : file) :
  fs w !! filename = Some f -> readable f = true -> writable f = true ->
  fix_logging filename w
  = (Done tt,
     World (<[filename := File (fix_logging_text (data f)) true true]> (fs w))
       (stdout w ++ ["Fixed " +:+ filename])
       (trace w ++ [EOpen filename R] ++ [ERead filename]
        ++ [EOpen filename W]
        ++ [EWrite filename (fix_logging_text (data f))])).
Proof.
  intros Hf Hr Hw.
  unfold fix_logging, read_text, write_text, bind, log, lookup_file, store,
    print, ret.
  simpl. rewrite Hf, Hr. simpl. rewrite Hf, Hw. simpl. rewrite Hr.
  rewrite insert_insert_eq, <- !app_assoc. reflexivity.
Qed.

(** After a read that succeeded: if reading the file returned the text
    [c] and the file can then be opened for writing, the run ends normally,
    the file at the path holds the rewrite of [c], every other file is as
    it was after the read, the one line printed is the confirmation, and
    the file was opened for writing and written once, in that order. *)
Theorem fix_logging_after_read
    (filename : string) (w w1 : world) (c : str) (f : file) :
  read_text filename w = (Done c, w1) ->
  fs w1 !! filename = Some f -> writable f = true ->
  exists w',
    fix_logging filename w = (Done tt, w') /\
    fs w' !! filename = Some (File (fix_logging_text c) (readable f) true) /\
    (forall p, p <> filename -> fs w' !! p = fs w1 !! p) /\
    stdout w' = stdout w1 ++ ["Fixed " +:+ filename] /\
    trace w' = trace w1 ++ [EOpen filename W;
                            EWrite filename (fix_logging_text c)].
Proof.
  intros Hread Hf Hw.
  exists (World (<[filename := File (fix_logging_text c) (readable f) true]>
                   (fs w1))
            (stdout w1 ++ ["Fixed " +:+ filename])
            (trace w1 ++ [EOpen filename W;
                          EWrite filename (fix_logging_text c)])).
  split; [|simpl; repeat split].
  - unfold fix_logging, bind at 1. rewrite Hread.
    unfold write_text, bind, log, lookup_file, store, print.
    simpl. rewrite Hf, Hw. simpl.
    rewrite insert_insert_eq, <- !app_assoc. reflexivity.
  - apply lookup_insert_eq.
  - intros p Hp. apply lookup_insert_ne. congruence.
Qed.

Lemma fix_logging_after_read_witness :
  exists w',
    fix_logging "Core.lua"
      (World {[ "Core.lua"%string := File (plain_guard (py "x")) true true ]}
         [] []) = (Done tt, w') /\
    fs w' !! "Core.lua"%string
    = Some (File (fix_logging_text (plain_guard (py "x"))) true true) /\
    stdout w' = ["Fixed Core.lua"%string].
Proof.
  destruct (fix_logging_after_read "Core.lua"
              (World {[ "Core.lua"%string
                        := File (plain_guard (py "x")) true true ]} [] [])
              (World {[ "Core.lua"%string
                        := File (plain_guard (py "x")) true true ]} []
                 [EOpen "Core.lua" R; ERead "Core.lua"])
              (plain_guard (py "x"))
              (File (plain_guard (py "x")) true true))
    as (w' & E & Hfile & _ & Hout & _).
  - unfold read_text, bind, log, lookup_file, ret. simpl.
    rewrite lookup_singleton_eq. reflexivity.
  - apply lookup_singleton_eq.
  - reflexivity.
  - exists w'. split; [exact E|]. split; [exact Hfile|exact Hout].
Defined.

(** When the file can be read but not written, the run ends with the
    [PermissionError] of the second [open], after the read and the rewrite
    in memory: the file system is unchanged (the file keeps its old text),
    and the confirmation is not printed. *)
Theorem write_failure_leaves_file (filename : string) (w : world) (f : file) :
  fs w !! filename = Some f -> readable f = true -> writable f = false ->
  fix_logging filename w
  = (Raised (PermissionError filename),
     World (fs w) (stdout w)
       (trace w ++ [EOpen filename R; ERead filename; EOpen filename W])).
Proof.
  intros Hf Hr Hw.
  unfold fix_logging, read_text, write_text, bind, log, lookup_file, raise, ret.
  simpl. rewrite Hf, Hr. simpl. rewrite Hf, Hw. simpl.
  rewrite <- !app_assoc. reflexivity.
Qed.

Lemma write_failure_leaves_file_witness :
  fix_logging "Core.lua"
    (World {[ "Core.lua"%string := File (plain_guard (py "x")) true false ]}
       [] [])
  = (Raised (PermissionError "Core.lua"),
     World {[ "Core.lua"%string := File (plain_guard (py "x")) true false ]}
       [] [EOpen "Core.lua" R; ERead "Core.lua"; EOpen "Core.lua" W]).
Proof.
  rewrite (write_failure_leaves_file "Core.lua"
             (World {[ "Core.lua"%string
                       := File (plain_guard (py "x")) true false ]} [] [])
             (File (plain_guard (py "x")) true false)).
  - reflexivity.
  - apply lookup_singleton_eq.
  - reflexivity.
  - reflexivity.
Defined.

End ScriptFacts.

(** * The rewrite *)

Section Rewrite.

Lemma pattern1_shape :
  pattern1 = Lit guard_format -+- Group (Plus (CNot RPAREN))
             -+- Lit (RPAREN :: py ") end").
Proof. reflexivity. Qed.

Lemma pattern2_shape :
  pattern2 = Lit guard_print -+- Group (Plus (CNot RPAREN))
             -+- Lit (RPAREN :: py " end").
Proof. reflexivity. Qed.

Lemma sub_at_empty_text r t b :
  re_match r true [] = None -> re_match r false [] = None ->
  sub_at r t b [] = [].
Proof. intros H1 H2. apply sub_at_nil. destruct b; assumption. Qed.

(** Rule 1 on a formatted one-line guard. *)
Lemma rule1_format_guard args :
  args <> [] -> ~ In RPAREN args -> rule1 (format_guard args) = debug_of args.
Proof.
  intros Hne Ha. unfold rule1, sub. rewrite pattern1_shape.
  change (format_guard args)
    with (guard_format ++ args ++ (RPAREN :: py ") end") ++ []).
  rewrite guard_sub by assumption.
  rewrite sub_at_empty_text by reflexivity.
  unfold debug_of. simpl. rewrite app_nil_r. reflexivity.
Qed.

(** Rule 2 on a plain one-line guard. *)
Lemma rule2_plain_guard args :
  args <> [] -> ~ In RPAREN args -> rule2 (plain_guard args) = debug_of args.
Proof.
  intros Hne Ha. unfold rule2, sub. rewrite pattern2_shape.
  change (plain_guard args)
    with (guard_print ++ args ++ (RPAREN :: py " end") ++ []).
  rewrite guard_sub by assumption.
  rewrite sub_at_empty_text by reflexivity.
  unfold debug_of. simpl. rewrite app_nil_r. reflexivity.
Qed.

(** Rule 1 needs two opening parentheses; a plain guard with arguments
    free of them has one. *)
Lemma rule1_plain_guard args :
  ~ In LPAREN args -> rule1 (plain_guard args) = plain_guard args.
Proof.
  intros Ha. apply sub_at_no_search, (search_at_occ _ LPAREN).
  unfold plain_guard. rewrite !occ_app, (occ_notin _ args Ha).
  vm_compute. lia.
Qed.

(** The debug call rules 1 and 2 produce is left alone by every rule when
    the arguments have no parenthesis and no line feed. *)
Lemma debug_of_no_search args r :
  ~ In LPAREN args -> ~ In RPAREN args -> ~ In LF args ->
  In r patterns -> search r (debug_of args) = false.
Proof.
  intros Hl Hr Hn Hin. unfold search. simpl in Hin.
  assert (HLF : ~ In LF (debug_of args)).
  { unfold debug_of. rewrite !in_app_iff. intros [H|[H|H]].
    - vm_compute in H. intuition discriminate.
    - contradiction.
    - vm_compute in H. intuition discriminate. }
  assert (Hone : occ LPAREN (debug_of args) = 1%nat
                 /\ occ RPAREN (debug_of args) = 1%nat
                 /\ occ LF (debug_of args) = 0%nat).
  { unfold debug_of.
    rewrite !occ_app, (occ_notin _ args Hl), (occ_notin _ args Hr),
      (occ_notin _ args Hn).
    repeat split; reflexivity. }
  destruct Hone as (H1 & H2 & H3).
  destruct Hin as [<-|[<-|[<-|[<-|[<-|[<-|[]]]]]]].
  - apply (search_at_occ _ LPAREN). rewrite H1. vm_compute. lia.
  - destruct (search_at pattern2 true (debug_of args)) eqn:E; [|reflexivity].
    rewrite pattern2_shape in E.
    apply guard_search in E as (pre & a & post & _ & Ha & E).
    exfalso.
    assert (Hpre : ~ In RPAREN (pre ++ guard_print ++ a)).
    { apply (count_occ_not_In N.eq_dec).
      rewrite E in H2. unfold occ in H2.
      rewrite !count_occ_app in H2. rewrite !count_occ_app.
      simpl in H2. simpl. lia. }
    assert (Hdbg : ~ In RPAREN (py "addon:Debug(" ++ args)).
    { rewrite in_app_iff. intros [H|H]; [|contradiction].
      vm_compute in H. intuition discriminate. }
    assert (E' : (py "addon:Debug(" ++ args) ++ RPAREN :: []
                 = (pre ++ guard_print ++ a) ++ RPAREN :: py " end" ++ post).
    { transitivity (debug_of args).
      - unfold debug_of. rewrite <- app_assoc. reflexivity.
      - rewrite E, <- !app_assoc. reflexivity. }
    apply split_unique in E' as [_ E']; [discriminate|assumption..].
  - apply (search_at_occ _ LF). rewrite H3. vm_compute. lia.
  - apply (search_at_occ _ LF). rewrite H3. vm_compute. lia.
  - apply (search_at_occ _ LPAREN). rewrite H1. vm_compute. lia.
  - apply search_bol; [exact HLF|]. vm_compute. reflexivity.
Qed.

(** A call [f(x)] as the only argument of a plain guard. *)
Lemma call_guard_shape f x :
  plain_guard (f ++ py "(" ++ x ++ py ")")
  = py "if addon.DEBUG then print" ++ LPAREN :: f ++ LPAREN :: x
    ++ RPAREN :: py ") end".
Proof.
  unfold plain_guard, guard_print. rewrite <- !app_assoc. reflexivity.
Qed.

Lemma call_guard_no_search f x r :
  ~ In LPAREN f -> ~ In RPAREN f -> ~ In LF f ->
  ~ In LPAREN x -> ~ In RPAREN x -> ~ In LF x ->
  f <> py "string.format" ->
  In r patterns -> search r (plain_guard (f ++ py "(" ++ x ++ py ")")) = false.
Proof.
  intros Hfl Hfr Hfn Hxl Hxr Hxn Hf Hin. unfold search.
  rewrite call_guard_shape.
  set (G' := py "if addon.DEBUG then print").
  set (T := G' ++ LPAREN :: f ++ LPAREN :: x ++ RPAREN :: py ") end").
  assert (HG' : ~ In LPAREN G' /\ ~ In RPAREN G' /\ ~ In LF G').
  { repeat split; vm_compute; intuition discriminate. }
  destruct HG' as (HGl & HGr & HGn).
  assert (HLF : ~ In LF T).
  { unfold T. notin. }
  assert (HoccL : occ LPAREN T = 2%nat).
  { pose proof (occ_notin _ _ Hfl) as H1. pose proof (occ_notin _ _ Hxl) as H2.
    unfold T, occ in *. rewrite count_occ_app. simpl. rewrite count_occ_app.
    simpl. rewrite count_occ_app. simpl. lia. }
  assert (HoccN : occ LF T = 0%nat) by (apply occ_notin, HLF).
  simpl in Hin.
  destruct Hin as [<-|[<-|[<-|[<-|[<-|[<-|[]]]]]]].
  - (* rule 1: the text between the two opening parentheses would have to
       be string.format *)
    destruct (search_at pattern1 true T) eqn:E; [|reflexivity]. exfalso.
    rewrite pattern1_shape in E.
    apply guard_search in E as (pre & a & post & _ & Ha & E).
    assert (Hpre : ~ In LPAREN (pre ++ G')).
    { apply (count_occ_not_In N.eq_dec).
      rewrite E in HoccL. unfold occ in HoccL.
      rewrite !count_occ_app in HoccL. rewrite count_occ_app.
      fold (occ LPAREN G'). rewrite (occ_notin _ _ HGl).
      simpl in HoccL. lia. }
    assert (E1 : G' ++ LPAREN :: (f ++ LPAREN :: x ++ RPAREN :: py ") end")
               = (pre ++ G') ++ LPAREN :: (py "string.format" ++ LPAREN ::
                   (a ++ (RPAREN :: py ") end") ++ post))).
    { fold T. rewrite E. unfold guard_format, G'. rewrite <- !app_assoc.
      reflexivity. }
    apply split_unique in E1 as [_ E1]; [|assumption..].
    apply split_unique in E1 as [E1 _]; [contradiction|assumption|].
    vm_compute. intuition discriminate.
  - (* rule 2: the first closing parenthesis is followed by another one *)
    destruct (search_at pattern2 true T) eqn:E; [|reflexivity]. exfalso.
    rewrite pattern2_shape in E.
    apply guard_search in E as (pre & a & post & _ & Ha & E).
    assert (HY : ~ In RPAREN (G' ++ LPAREN :: f ++ LPAREN :: x)).
    { notin. }
    assert (ET : T = (G' ++ LPAREN :: f ++ LPAREN :: x)
                     ++ RPAREN :: py ") end").
    { unfold T. rewrite <- !app_assoc. simpl. rewrite <- !app_assoc.
      reflexivity. }
    destruct (in_dec N.eq_dec RPAREN pre) as [Hin|Hnin].
    + apply list_elem_of_In, list_elem_of_split_l in Hin
        as (p1 & p2 & -> & Hp1).
      rewrite list_elem_of_In in Hp1.
      assert (E2 : (G' ++ LPAREN :: f ++ LPAREN :: x) ++ RPAREN :: py ") end"
                   = p1 ++ RPAREN :: (p2 ++ guard_print ++ a
                                      ++ (RPAREN :: py " end") ++ post)).
      { rewrite <- ET, E, <- !app_assoc. reflexivity. }
      apply split_unique in E2 as [_ E2]; [|assumption..].
      apply (f_equal length) in E2. rewrite !length_app in E2.
      assert (length (py ") end") = 5%nat) as E5 by reflexivity.
      assert (length guard_print = 26%nat) as E26 by reflexivity.
      lia.
    + assert (Hl1 : ~ In RPAREN (pre ++ guard_print ++ a)).
      { notin. }
      assert (E2 : (G' ++ LPAREN :: f ++ LPAREN :: x) ++ RPAREN :: py ") end"
                   = (pre ++ guard_print ++ a)
                     ++ RPAREN :: (py " end" ++ post)).
      { rewrite <- ET, E, <- !app_assoc. reflexivity. }
      apply split_unique in E2 as [_ E2]; [|assumption..].
      discriminate.
  - apply (search_at_occ _ LF). rewrite HoccN. vm_compute. lia.
  - apply (search_at_occ _ LF). rewrite HoccN. vm_compute. lia.
  - apply search_bol; [exact HLF|]. vm_compute. reflexivity.
  - apply search_bol; [exact HLF|]. vm_compute. reflexivity.
Qed.

(** The spec's scenarios 2 and 3. *)
Example scenario_simple_message :
  fix_logging_text
    (py "if addon.DEBUG then print(" ++ dq ++ py "simple message" ++ dq
     ++ py ") end")
  = py "addon:Debug(" ++ dq ++ py "simple message" ++ dq ++ py ")".
Proof. vm_compute. reflexivity. Qed.

Example scenario_multi_line :
  fix_logging_text
    (py "if addon.DEBUG then" ++ nl
     ++ py "    print(string.format(" ++ dq ++ py "Session started: %d" ++ dq
     ++ py ", id))" ++ nl ++ py "end")
  = py "addon:Debug(" ++ dq ++ py "Session started: %d" ++ dq ++ py ", id)".
Proof. vm_compute. reflexivity. Qed.

(** C1 (the code departs from it). On the spec's scenario 4 the rewrite
    returns the debug call without the prefix word: rule 5 matches the word
    [Session] as part of the pattern and its template does not put it
    back, so the output is not the line the claim gives. *)
Theorem rule5_drops_prefix_word :
  fix_logging_text session_deleted_line
  = py "    addon:Debug(" ++ dq ++ py " deleted: %s" ++ dq ++ py ", name))"
  /\ fix_logging_text session_deleted_line
     <> py "    addon:Debug(" ++ dq ++ py "Session deleted: %s" ++ dq
        ++ py ", name))".
Proof. split; [vm_compute; reflexivity|vm_compute; discriminate]. Qed.

(** C2 (the code departs from it). On the spec's scenario 5 the rewrite
    returns the info call without the prefix words: rule 6 matches
    [No sessions] as part of the pattern and its template does not put the
    words back, so the output is not the line the claim gives. *)
Theorem rule6_drops_prefix_words :
  fix_logging_text no_sessions_line
  = py "    addon:Info(" ++ dq ++ py " found" ++ dq ++ py ")"
  /\ fix_logging_text no_sessions_line
     <> py "    addon:Info(" ++ dq ++ py "No sessions found" ++ dq ++ py ")".
Proof. split; [vm_compute; reflexivity|vm_compute; discriminate]. Qed.

(** A text none of the six patterns matches goes through the six rules
    unchanged. *)
Lemma unmatched_unchanged (T : str) :
  (forall r, In r patterns -> search r T = false) -> fix_logging_text T = T.
Proof.
  intros H. unfold fix_logging_text, rule1, rule2, rule3, rule4, rule5, rule6, sub.
  rewrite (sub_at_no_search pattern1) by (apply H; simpl; tauto).
  rewrite (sub_at_no_search pattern2) by (apply H; simpl; tauto).
  rewrite (sub_at_no_search pattern3) by (apply H; simpl; tauto).
  rewrite (sub_at_no_search pattern4) by (apply H; simpl; tauto).
  rewrite (sub_at_no_search pattern5) by (apply H; simpl; tauto).
  rewrite (sub_at_no_search pattern6) by (apply H; simpl; tauto).
  reflexivity.
Qed.

(** C6. If none of the six patterns matches anywhere in the input text,
    the output text of the rewrite is the input text. *)
Theorem no_match_identity (T : str) :
  (forall r, In r patterns -> search r T = false) -> fix_logging_text T = T.
Proof. exact (unmatched_unchanged T). Qed.

Lemma no_match_identity_witness :
  fix_logging_text (py "local x = 5") = py "local x = 5".
Proof.
  apply (no_match_identity (py "local x = 5")).
  intros r Hr. simpl in Hr.
  repeat (destruct Hr as [<-|Hr]; [vm_compute; reflexivity|]). destruct Hr.
Defined.


(** C5, counterexample. A one-line guard with an empty argument list has no
    parentheses among its arguments, yet it is not rewritten: the capture
    [[^)]+] needs at least one character. *)
Lemma empty_args_guard_kept :
  ~ In LPAREN [] /\ ~ In RPAREN [] /\
  fix_logging_text (plain_guard []) = py "if addon.DEBUG then print() end" /\
  fix_logging_text (plain_guard []) <> debug_of [].
Proof.
  split; [intros []|]. split; [intros []|]. split.
  - vm_compute. reflexivity.
  - vm_compute. discriminate.
Qed.

(** C5, amended. For every non-empty argument text without parentheses and
    without line feed, the rewrite turns the one-line guard around
    [print(<args>)] and the one around [print(string.format(<args>))]
    into [addon:Debug(<args>)], the arguments verbatim and nothing else
    left of the guard. *)
Theorem guard_rewritten_verbatim (args : str) :
  args <> [] -> ~ In LPAREN args -> ~ In RPAREN args -> ~ In LF args ->
  fix_logging_text (plain_guard args) = debug_of args /\
  fix_logging_text (format_guard args) = debug_of args.
Proof.
  intros Hne Hl Hr Hn.
  pose proof (debug_of_no_search args) as Hd.
  assert (Hrest : forall r, In r patterns ->
            sub r debug_call (debug_of args) = debug_of args
            /\ sub r debug_head (debug_of args) = debug_of args
            /\ sub r info_head (debug_of args) = debug_of args).
  { intros r Hin. repeat split; apply sub_at_no_search, Hd; assumption. }
  split; unfold fix_logging_text.
  - rewrite rule1_plain_guard, rule2_plain_guard by assumption.
    unfold rule3, rule4, rule5, rule6.
    rewrite (proj1 (Hrest pattern3 ltac:(simpl; tauto))).
    rewrite (proj1 (Hrest pattern4 ltac:(simpl; tauto))).
    rewrite (proj1 (proj2 (Hrest pattern5 ltac:(simpl; tauto)))).
    rewrite (proj2 (proj2 (Hrest pattern6 ltac:(simpl; tauto)))).
    reflexivity.
  - rewrite rule1_format_guard by assumption.
    unfold rule2, rule3, rule4, rule5, rule6.
    rewrite (proj1 (Hrest pattern2 ltac:(simpl; tauto))).
    rewrite (proj1 (Hrest pattern3 ltac:(simpl; tauto))).
    rewrite (proj1 (Hrest pattern4 ltac:(simpl; tauto))).
    rewrite (proj1 (proj2 (Hrest pattern5 ltac:(simpl; tauto)))).
    rewrite (proj2 (proj2 (Hrest pattern6 ltac:(simpl; tauto)))).
    reflexivity.
Qed.

Lemma guard_rewritten_verbatim_witness :
  fix_logging_text (plain_guard loading_args) = debug_of loading_args /\
  fix_logging_text
    (py "if addon.DEBUG then print(string.format(" ++ dq ++ py "Loading %s"
     ++ dq ++ py ", name)) end")
  = py "addon:Debug(" ++ dq ++ py "Loading %s" ++ dq ++ py ", name)".
Proof.
  apply (guard_rewritten_verbatim loading_args).
  - discriminate.
  - vm_compute. intuition discriminate.
  - vm_compute. intuition discriminate.
  - vm_compute. intuition discriminate.
Defined.

(** C4, counterexample. With the call [foo(x)] as the argument of a guard,
    the first closing parenthesis is followed by a second one, so rule 2
    does not match and the rewrite returns the guard as it was: no
    truncated call is produced. *)
Lemma nested_call_guard_kept :
  fix_logging_text (py "if addon.DEBUG then print(foo(x)) end")
  = py "if addon.DEBUG then print(foo(x)) end"
  /\ re_match pattern2 true (py "if addon.DEBUG then print(foo(x)) end")
     = None.
Proof. split; vm_compute; reflexivity. Qed.

(** C4, amended. At a guard head the capture is the run [a] of characters
    up to the first closing parenthesis, and rule 2 (rule 1) matches only
    if that parenthesis is directly followed by [ end] ([) end]): then the
    replacement is [addon:Debug(a)] whatever text follows, and otherwise
    the rule does not match at the guard.  In particular a plain guard
    whose argument is a call [f(x)], with [f] and [x] free of parentheses
    and line feeds and [f] other than [string.format], is returned
    unchanged by the whole rewrite. *)
Theorem guard_capture_to_first_rparen (b : bool) (a s f x : str) :
  ~ In RPAREN a ->
  ~ In LPAREN f -> ~ In RPAREN f -> ~ In LF f ->
  ~ In LPAREN x -> ~ In RPAREN x -> ~ In LF x ->
  f <> py "string.format" ->
  (a <> [] ->
   re_match pattern2 b (guard_print ++ a ++ py ") end" ++ s)
   = Some (MState false s (Some a)) /\
   re_match pattern1 b (guard_format ++ a ++ py ")) end" ++ s)
   = Some (MState false s (Some a)) /\
   sub_at pattern2 debug_call b (guard_print ++ a ++ py ") end" ++ s)
   = debug_of a ++ sub_at pattern2 debug_call false s /\
   sub_at pattern1 debug_call b (guard_format ++ a ++ py ")) end" ++ s)
   = debug_of a ++ sub_at pattern1 debug_call false s) /\
  ((forall s', s <> py " end" ++ s') ->
   re_match pattern2 b (guard_print ++ a ++ RPAREN :: s) = None) /\
  ((forall s', s <> py ") end" ++ s') ->
   re_match pattern1 b (guard_format ++ a ++ RPAREN :: s) = None) /\
  fix_logging_text (plain_guard (f ++ py "(" ++ x ++ py ")"))
  = plain_guard (f ++ py "(" ++ x ++ py ")").
Proof.
  intros Ha Hfl Hfr Hfn Hxl Hxr Hxn Hf.
  assert (Hexp : forall u, expand debug_call (Some a) ++ u = debug_of a ++ u).
  { intros u. unfold debug_of, expand, debug_call.
    cbn [flat_map expand_item default from_option id].
    rewrite app_nil_r, <- !app_assoc. reflexivity. }
  split; [|split; [|split]].
  - intros Hne. repeat split.
    + rewrite pattern2_shape.
      exact (guard_hit guard_print (py " end") RPAREN b a s Hne Ha).
    + rewrite pattern1_shape.
      exact (guard_hit guard_format (py ") end") RPAREN b a s Hne Ha).
    + rewrite pattern2_shape, <- Hexp.
      exact (guard_sub guard_print (py " end") RPAREN debug_call b a s Hne Ha).
    + rewrite pattern1_shape, <- Hexp.
      exact (guard_sub guard_format (py ") end") RPAREN debug_call b a s Hne Ha).
  - intros Hs. rewrite pattern2_shape. apply guard_miss; [exact Ha|].
    right. exact Hs.
  - intros Hs. rewrite pattern1_shape. apply guard_miss; [exact Ha|].
    right. exact Hs.
  - apply unmatched_unchanged. intros r Hr.
    apply call_guard_no_search; assumption.
Qed.

Lemma guard_capture_to_first_rparen_witness :
  re_match pattern2 true
    (py "if addon.DEBUG then print(foo(x) end) end, more")
  = Some (MState false (py ") end, more") (Some (py "foo(x"))) /\
  re_match pattern2 true (py "if addon.DEBUG then print(foo(x)) end") = None /\
  fix_logging_text (py "if addon.DEBUG then print(foo(x)) end")
  = py "if addon.DEBUG then print(foo(x)) end".
Proof.
  assert (Pa : ~ In RPAREN (py "foo(x")) by (vm_compute; intuition discriminate).
  assert (Pfl : ~ In LPAREN (py "foo")) by (vm_compute; intuition discriminate).
  assert (Pfr : ~ In RPAREN (py "foo")) by (vm_compute; intuition discriminate).
  assert (Pfn : ~ In LF (py "foo")) by (vm_compute; intuition discriminate).
  assert (Pxl : ~ In LPAREN (py "x")) by (vm_compute; intuition discriminate).
  assert (Pxr : ~ In RPAREN (py "x")) by (vm_compute; intuition discriminate).
  assert (Pxn : ~ In LF (py "x")) by (vm_compute; intuition discriminate).
  assert (Pf : py "foo" <> py "string.format") by (vm_compute; discriminate).
  pose proof (guard_capture_to_first_rparen true (py "foo(x")
                (py ") end, more") (py "foo") (py "x")
                Pa Pfl Pfr Pfn Pxl Pxr Pxn Pf) as (H1 & _ & _ & H4).
  pose proof (guard_capture_to_first_rparen true (py "foo(x")
                (py ") end") (py "foo") (py "x")
                Pa Pfl Pfr Pfn Pxl Pxr Pxn Pf) as (_ & H2 & _ & _).
  split; [|split].
  - apply H1. discriminate.
  - apply H2. intros s'. vm_compute. discriminate.
  - exact H4.
Defined.

(** The heads of rules 5 and 6 after their leading white space. *)
Lemma pattern5_shape :
  pattern5 = Bol -+- Star CSpace
             -+- Lit (112 :: py "rint(string.format(" ++ dq)
             -+- Group (Alt (Lit (py "Session"))
                       (Alt (Lit (py "Quality"))
                       (Alt (Lit (py "Loading"))
                       (Alt (Lit (py "Migrating"))
                            (Lit (py "Test session")))))).
Proof. reflexivity. Qed.

Lemma pattern6_shape :
  pattern6 = Bol -+- Star CSpace
             -+- Lit (112 :: py "rint(" ++ dq)
             -+- Group (Alt (Lit (py "Session deleted"))
                       (Alt (Lit (py "Sessions cleared"))
                            (Lit (py "No sessions")))).
Proof. reflexivity. Qed.

(** Rule 6 at a line start: the white space, the print head and the
    prefix words are replaced by the info head. *)
Lemma rule6_at_line_start ws W tail :
  Forall (fun c => is_space c = true) ws -> In W info_words ->
  sub_at pattern6 info_head true (ws ++ print_head ++ W ++ tail)
  = py "    addon:Info(" ++ dq ++ sub_at pattern6 info_head false tail.
Proof.
  intros Hws HW. simpl in HW. destruct HW as [<-|[<-|[<-|[]]]].
  all: rewrite pattern6_shape at 1.
  all: change print_head with (112 :: py "rint(" ++ dq).
  all: rewrite (anchored_sub info_head CSpace);
         [ rewrite <- pattern6_shape; reflexivity
         | reflexivity
         | assumption
         | intros b; vm_compute; reflexivity
         | discriminate
         | notin ].
Qed.

(** Rule 5 at a line start, likewise. *)
Lemma rule5_at_line_start ws W tail :
  Forall (fun c => is_space c = true) ws -> In W debug_words ->
  sub_at pattern5 debug_head true (ws ++ format_head ++ W ++ tail)
  = py "    addon:Debug(" ++ dq ++ sub_at pattern5 debug_head false tail.
Proof.
  intros Hws HW. simpl in HW. destruct HW as [<-|[<-|[<-|[<-|[<-|[]]]]]].
  all: rewrite pattern5_shape at 1.
  all: change format_head with (112 :: py "rint(string.format(" ++ dq).
  all: rewrite (anchored_sub debug_head CSpace);
         [ rewrite <- pattern5_shape; reflexivity
         | reflexivity
         | assumption
         | intros b; vm_compute; reflexivity
         | discriminate
         | notin ].
Qed.

(** Rules 1 to 5 copy blank text followed by an info print head; rule 6
    replaces both. *)
Lemma info_print_rewritten ws W tail :
  Forall (fun c => is_space c = true) ws -> In W info_words ->
  fix_logging_text (ws ++ print_head ++ W ++ tail)
  = py "    addon:Info(" ++ dq ++ fix_logging_from tail.
Proof.
  intros Hws HW. unfold fix_logging_text, fix_logging_from.
  unfold rule1, rule2, rule3, rule4, rule5, rule6, sub.
  rewrite <- (rule6_at_line_start ws W _ Hws HW).
  do 5 f_equal.
  rewrite !(app_assoc print_head W).
  simpl in HW. destruct HW as [<-|[<-|[<-|[]]]].
  all: rewrite (guard_rule_copies debug_call pattern1 _ _ ws _ tail eq_refl)
         by (assumption || reflexivity || discriminate || notin).
  all: rewrite (guard_rule_copies debug_call pattern2 _ _ ws _ _ eq_refl)
         by (assumption || reflexivity || discriminate || notin).
  all: rewrite (guard_rule_copies debug_call pattern3 _ _ ws _ _ eq_refl)
         by (assumption || reflexivity || discriminate || notin).
  all: rewrite (guard_rule_copies debug_call pattern4 _ _ ws _ _ eq_refl)
         by (assumption || reflexivity || discriminate || notin).
  all: rewrite pattern5_shape at 1.
  all: rewrite (anchored_skip debug_head CSpace)
         by (assumption || reflexivity || discriminate || notin).
  all: rewrite <- pattern5_shape; reflexivity.
Qed.

(** Rules 1 to 4 copy blank text followed by a debug print head, rule 5
    replaces both, and rule 6 copies the debug head rule 5 wrote. *)
Lemma debug_print_rewritten ws W tail :
  Forall (fun c => is_space c = true) ws -> In W debug_words ->
  fix_logging_text (ws ++ format_head ++ W ++ tail)
  = py "    addon:Debug(" ++ dq ++ fix_logging_from tail.
Proof.
  intros Hws HW. unfold fix_logging_text, fix_logging_from.
  unfold rule1, rule2, rule3, rule4, rule5, rule6, sub.
  set (t4 := sub_at pattern4 debug_call false
               (sub_at pattern3 debug_call false
                  (sub_at pattern2 debug_call false
                     (sub_at pattern1 debug_call false tail)))).
  transitivity (sub_at pattern6 info_head true
                  (sub_at pattern5 debug_head true
                     (ws ++ format_head ++ W ++ t4))).
  - do 2 f_equal. unfold t4.
    rewrite !(app_assoc format_head W).
    simpl in HW. destruct HW as [<-|[<-|[<-|[<-|[<-|[]]]]]].
    all: rewrite (guard_rule_copies debug_call pattern1 _ _ ws _ tail eq_refl)
           by (assumption || reflexivity || discriminate || notin).
    all: rewrite (guard_rule_copies debug_call pattern2 _ _ ws _ _ eq_refl)
           by (assumption || reflexivity || discriminate || notin).
    all: rewrite (guard_rule_copies debug_call pattern3 _ _ ws _ _ eq_refl)
           by (assumption || reflexivity || discriminate || notin).
    all: rewrite (guard_rule_copies debug_call pattern4 _ _ ws _ _ eq_refl)
           by (assumption || reflexivity || discriminate || notin).
    all: reflexivity.
  - rewrite (rule5_at_line_start ws W _ Hws HW).
    change (py "    addon:Debug(" ++ dq
            ++ sub_at pattern5 debug_head false t4)
      with (py "    " ++ (py "addon:Debug(" ++ dq)
            ++ sub_at pattern5 debug_head false t4).
    rewrite pattern6_shape at 1.
    rewrite (anchored_skip info_head CSpace)
      by (reflexivity || discriminate || notin
          || (repeat constructor)).
    rewrite <- pattern6_shape. reflexivity.
Qed.

(** C10. White space in front of a print that rule 5 or rule 6 matches is
    part of the match and is not in the output, line feeds included: at
    any line start the scan of rule 6 (rule 5) reaches, and for the whole
    rewrite of a text that begins with such white space, the output has
    the four-space head of the call in place of the white space, the
    print head and the prefix words, followed by the rewrite of the rest.
    With [ws] made of blank lines, the blank lines are gone. *)
Theorem blank_lines_absorbed (ws W tail : str) :
  Forall (fun c => is_space c = true) ws ->
  (In W info_words ->
   sub_at pattern6 info_head true (ws ++ print_head ++ W ++ tail)
   = py "    addon:Info(" ++ dq ++ sub_at pattern6 info_head false tail
   /\ fix_logging_text (ws ++ print_head ++ W ++ tail)
      = py "    addon:Info(" ++ dq ++ fix_logging_from tail) /\
  (In W debug_words ->
   sub_at pattern5 debug_head true (ws ++ format_head ++ W ++ tail)
   = py "    addon:Debug(" ++ dq ++ sub_at pattern5 debug_head false tail
   /\ fix_logging_text (ws ++ format_head ++ W ++ tail)
      = py "    addon:Debug(" ++ dq ++ fix_logging_from tail).
Proof.
  intros Hws. split; intros HW; split.
  - apply rule6_at_line_start; assumption.
  - apply info_print_rewritten; assumption.
  - apply rule5_at_line_start; assumption.
  - apply debug_print_rewritten; assumption.
Qed.

Lemma blank_lines_absorbed_witness :
  Forall (fun c => is_space c = true) (nl ++ nl ++ py "  " ++ nl) /\
  fix_logging_text (nl ++ nl ++ py "  " ++ nl ++ no_sessions_line)
  = py "    addon:Info(" ++ dq ++ py " found" ++ dq ++ py ")".
Proof.
  assert (Hws : Forall (fun c => is_space c = true) (nl ++ nl ++ py "  " ++ nl))
    by (repeat constructor).
  split; [exact Hws|].
  destruct (blank_lines_absorbed (nl ++ nl ++ py "  " ++ nl) (py "No sessions")
              (py " found" ++ dq ++ py ")") Hws) as [H6 _].
  destruct H6 as [_ H]; [right; right; left; reflexivity|].
  etransitivity; [exact H|]. vm_compute. reflexivity.
Defined.

(** The same with text before the blank lines. *)
Example blank_lines_after_text :
  fix_logging_text (py "x = 1" ++ nl ++ nl ++ py "  " ++ nl ++ no_sessions_line)
  = py "x = 1" ++ nl ++ py "    addon:Info(" ++ dq ++ py " found" ++ dq ++ py ")".
Proof. vm_compute. reflexivity. Qed.

End Rewrite.

(** * Further properties of the rewrite *)

Section Occurrence.

Lemma starts_with_app l s u :
  starts_with l s = true -> starts_with l (s ++ u) = true.
Proof.
  revert s. induction l as [|a l IH]; intros [|c s] H; simpl in *;
    try reflexivity; try discriminate.
  apply andb_true_iff in H as [-> H]. simpl. apply IH, H.
Qed.

Lemma contains_app_l l s u : contains l s = true -> contains l (s ++ u) = true.
Proof.
  induction s as [|c s IH]; intros H.
  - simpl in H. rewrite orb_false_r in H.
    destruct l; [|discriminate]. destruct u; reflexivity.
  - simpl in H. apply orb_true_iff in H as [H|H].
    + change ((c :: s) ++ u) with (c :: s ++ u). simpl contains.
      apply (starts_with_app l (c :: s) u) in H. simpl app in H.
      rewrite H. reflexivity.
    + change ((c :: s) ++ u) with (c :: s ++ u). simpl contains.
      rewrite (IH H). apply orb_true_r.
Qed.

Lemma contains_app_r l s u : contains l s = true -> contains l (u ++ s) = true.
Proof.
  intros H. induction u as [|c u IH]; [exact H|].
  simpl. rewrite IH. apply orb_true_r.
Qed.

(** Every match of a pattern that needs [l] has [l] in it. *)
Lemma needs_sound l r st st' :
  needs l r = true -> In st' (rmatch r st) ->
  exists m, rest st = m ++ rest st' /\ contains l m = true.
Proof.
  revert st st'. induction r as [l'| |k|k|r1 IH1 r2 IH2|r1 IH1 r2 IH2|r1 IH1];
    intros st st' Hn H; simpl in Hn; try discriminate.
  - simpl in H.
    destruct (lit_match l' (bol st) (rest st)) as [[b s]|] eqn:E; [|destruct H].
    destruct H as [<-|[]]. apply lit_match_sound in E as [E _].
    exists l'. split; assumption.
  - apply andb_true_iff in Hn as [H1 H2]. simpl in H.
    apply in_app_or in H as [H|H]; [apply IH1|apply IH2]; assumption.
  - simpl in H. apply in_flat_map in H as (st1 & Ha & Hb).
    apply orb_true_iff in Hn as [Hn|Hn].
    + destruct (IH1 _ _ Hn Ha) as (m1 & E1 & C1).
      destruct (rmatch_sound 0 _ _ _ Hb) as (m2 & E2 & _).
      exists (m1 ++ m2). split.
      * rewrite E1, E2, app_assoc. reflexivity.
      * apply contains_app_l, C1.
    + destruct (rmatch_sound 0 _ _ _ Ha) as (m1 & E1 & _).
      destruct (IH2 _ _ Hn Hb) as (m2 & E2 & C2).
      exists (m1 ++ m2). split.
      * rewrite E1, E2, app_assoc. reflexivity.
      * apply contains_app_r, C2.
  - simpl in H. apply in_map_iff in H as (st1 & <- & H1).
    destruct (IH1 _ _ Hn H1) as (m & E & C). exists m. split; assumption.
Qed.

Lemma search_needs l r b T :
  needs l r = true -> search_at r b T = true -> contains l T = true.
Proof.
  intros Hn H. apply search_at_true in H as (pre & s0 & st & -> & H).
  apply head_In, (needs_sound l) in H as (m & E & C); [|exact Hn].
  simpl in E. rewrite E. apply contains_app_r, contains_app_l, C.
Qed.

(** A text in which [print(] does not occur is returned as it is: each of
    the six patterns has [print(] among its literals. *)
Theorem no_print_unchanged (T : str) :
  contains (py "print(") T = false -> fix_logging_text T = T.
Proof.
  intros H. apply unmatched_unchanged. intros r Hr. unfold search.
  destruct (search_at r true T) eqn:E; [|reflexivity].
  apply (search_needs (py "print(")) in E; [congruence|].
  simpl in Hr.
  destruct Hr as [<-|[<-|[<-|[<-|[<-|[<-|[]]]]]]]; vm_compute; reflexivity.
Qed.

Lemma no_print_unchanged_witness :
  fix_logging_text
    (py "if addon.DEBUG then" ++ nl ++ py "  addon:Debug(sprint (x))" ++ nl
     ++ py "end")
  = py "if addon.DEBUG then" ++ nl ++ py "  addon:Debug(sprint (x))" ++ nl
    ++ py "end".
Proof.
  apply (no_print_unchanged
           (py "if addon.DEBUG then" ++ nl ++ py "  addon:Debug(sprint (x))"
            ++ nl ++ py "end")).
  vm_compute. reflexivity.
Defined.

End Occurrence.

Section WhatChanges.

(** A substitution that changes a text has found its pattern in it. *)
Lemma changed_search r t T : sub r t T <> T -> search r T = true.
Proof.
  intros H. unfold search. destruct (search_at r true T) eqn:E; [reflexivity|].
  exfalso. apply H. apply sub_at_no_search, E.
Qed.

Lemma bol_after_true_inv pre :
  bol_after true pre = true -> pre = [] \/ exists p, pre = p ++ nl.
Proof.
  intros H. destruct pre as [|c pre _] using rev_ind; [left; reflexivity|].
  right. exists pre. rewrite bol_after_app in H. unfold bol_after in H.
  simpl in H. apply N.eqb_eq in H. subst c. reflexivity.
Qed.

(** Rules 1 and 2 change a text only where it holds a one-line guard:
    the guard head, a non-empty run without closing parenthesis, and the
    closing text of the rule. *)
Theorem one_line_rules_need_guard (T : str) :
  (rule1 T <> T ->
   exists pre a post,
     a <> [] /\ ~ In RPAREN a /\ T = pre ++ format_guard a ++ post) /\
  (rule2 T <> T ->
   exists pre a post,
     a <> [] /\ ~ In RPAREN a /\ T = pre ++ plain_guard a ++ post).
Proof.
  split; intros H; apply changed_search in H; unfold search in H.
  - rewrite pattern1_shape in H.
    apply guard_search in H as (pre & a & post & Hne & Ha & E).
    exists pre, a, post. repeat split; try assumption.
    rewrite E. unfold format_guard. rewrite <- !app_assoc. reflexivity.
  - rewrite pattern2_shape in H.
    apply guard_search in H as (pre & a & post & Hne & Ha & E).
    exists pre, a, post. repeat split; try assumption.
    rewrite E. unfold plain_guard. rewrite <- !app_assoc. reflexivity.
Qed.

Lemma one_line_rules_need_guard_witness :
  exists pre a post,
    a <> [] /\ ~ In RPAREN a /\
    py "x = 1; " ++ plain_guard (py "y") ++ py " -- done"
    = pre ++ plain_guard a ++ post.
Proof.
  apply (one_line_rules_need_guard
           (py "x = 1; " ++ plain_guard (py "y") ++ py " -- done")).
  vm_compute. discriminate.
Defined.

(** What the anchored patterns of rules 5 and 6 match: at a line start, a
    run of white space, the print head, and one of the words. *)
Lemma anchored_sound k H A st0 st :
  In st (rmatch (Bol -+- Star k -+- Lit H -+- Group A) st0) ->
  bol st0 = true /\
  exists ws st1 st2,
    Forall (fun c => in_class k c = true) ws /\
    rest st0 = ws ++ H ++ rest st1 /\
    In st2 (rmatch A st1) /\ rest st = rest st2.
Proof.
  intros Hin. rewrite rmatch_bol in Hin.
  destruct (bol st0); [|destruct Hin]. split; [reflexivity|].
  apply in_flat_map in Hin as (sa & Ha & Hin).
  apply in_flat_map in Hin as (sb & Hb & Hin).
  simpl in Ha. apply star_states_sound in Ha as (ws & Ews & Hws & _).
  simpl in Hb.
  destruct (lit_match H (bol sa) (rest sa)) as [[b1 s1]|] eqn:EH; [|destruct Hb].
  destruct Hb as [<-|[]]. apply lit_match_sound in EH as [EH _].
  simpl in Hin. apply in_map_iff in Hin as (st2 & <- & Hin).
  exists ws, (MState b1 s1 (grp sa)), st2. repeat split; try assumption.
  rewrite Ews, EH. reflexivity.
Qed.

Lemma rmatch_alt r1 r2 st :
  rmatch (Alt r1 r2) st = rmatch r1 st ++ rmatch r2 st.
Proof. reflexivity. Qed.

Lemma lit_word_sound W st st' :
  In st' (rmatch (Lit W) st) -> rest st = W ++ rest st'.
Proof.
  simpl. destruct (lit_match W (bol st) (rest st)) as [[b s]|] eqn:E;
    [|intros []].
  intros [<-|[]]. apply lit_match_sound in E as [E _]. exact E.
Qed.

(** Rule 5 (rule 6) changes a text only where, at the start of the text
    or right after a line feed, it holds white space, the head
    [print(string.format(] ([print(]) with the opening quote, and one of
    the rule's words. *)
Theorem standalone_rules_need_head (T : str) :
  (rule5 T <> T ->
   exists pre ws W tail,
     (pre = [] \/ exists p, pre = p ++ nl) /\
     Forall (fun c => is_space c = true) ws /\ In W debug_words /\
     T = pre ++ ws ++ format_head ++ W ++ tail) /\
  (rule6 T <> T ->
   exists pre ws W tail,
     (pre = [] \/ exists p, pre = p ++ nl) /\
     Forall (fun c => is_space c = true) ws /\ In W info_words /\
     T = pre ++ ws ++ print_head ++ W ++ tail).
Proof.
  split; intros H; apply changed_search, search_at_true in H
    as (pre & s0 & st & -> & H); apply head_In in H.
  - rewrite pattern5_shape in H.
    apply anchored_sound in H as (Hb & ws & st1 & st2 & Hws & E & HA & _).
    simpl in Hb, E. apply bol_after_true_inv in Hb.
    assert (HW : exists W, In W debug_words /\ rest st1 = W ++ rest st2).
    { rewrite !rmatch_alt in HA. unfold debug_words.
      repeat (apply in_app_or in HA as [HA|HA];
              [apply lit_word_sound in HA; eexists; split; [|exact HA];
               simpl; tauto|]).
      apply lit_word_sound in HA. eexists. split; [|exact HA]. simpl. tauto. }
    destruct HW as (W & HW & EW).
    exists pre, ws, W, (rest st2). repeat split; try assumption.
    rewrite E, EW. reflexivity.
  - rewrite pattern6_shape in H.
    apply anchored_sound in H as (Hb & ws & st1 & st2 & Hws & E & HA & _).
    simpl in Hb, E. apply bol_after_true_inv in Hb.
    assert (HW : exists W, In W info_words /\ rest st1 = W ++ rest st2).
    { rewrite !rmatch_alt in HA. unfold info_words.
      repeat (apply in_app_or in HA as [HA|HA];
              [apply lit_word_sound in HA; eexists; split; [|exact HA];
               simpl; tauto|]).
      apply lit_word_sound in HA. eexists. split; [|exact HA]. simpl. tauto. }
    destruct HW as (W & HW & EW).
    exists pre, ws, W, (rest st2). repeat split; try assumption.
    rewrite E, EW. reflexivity.
Qed.

Lemma standalone_rules_need_head_witness :
  exists pre ws W tail,
    (pre = [] \/ exists p, pre = p ++ nl) /\
    Forall (fun c => is_space c = true) ws /\ In W info_words /\
    py "x = 1" ++ nl ++ py "  " ++ no_sessions_line
    = pre ++ ws ++ print_head ++ W ++ tail.
Proof.
  apply (standalone_rules_need_head
           (py "x = 1" ++ nl ++ py "  " ++ no_sessions_line)).
  vm_compute. discriminate.
Defined.

End WhatChanges.

Section Lengths.

(** A match is at least as long as [min_len] says, and outside the text it
    captures at least as long as [out_len] says. *)
Lemma rmatch_len r st st' :
  In st' (rmatch r st) ->
  exists m, rest st = m ++ rest st' /\ (min_len r <= length m)%nat /\
            (out_len r + glen (grp st') <= length m + glen (grp st))%nat.
Proof.
  revert st st'. induction r as [l| |k|k|r1 IH1 r2 IH2|r1 IH1 r2 IH2|r1 IH1];
    intros st st' H; simpl in H.
  - destruct (lit_match l (bol st) (rest st)) as [[b s]|] eqn:E; [|destruct H].
    destruct H as [<-|[]]. apply lit_match_sound in E as [E _].
    exists l. simpl. repeat split; [exact E|lia..].
  - destruct (bol st); [|destruct H]. destruct H as [<-|[]].
    exists []. simpl. repeat split; lia.
  - apply star_states_sound in H as (m & E & _ & Hg & _). exists m.
    rewrite Hg. simpl. repeat split; [exact E|lia..].
  - destruct (rest st) as [|d s] eqn:Es; [destruct H|].
    destruct (in_class k d); [|destruct H].
    apply star_states_sound in H as (m & E & _ & Hg & _). exists (d :: m).
    rewrite Hg, E. simpl. repeat split; lia.
  - apply in_app_or in H as [H|H].
    + apply IH1 in H as (m & E & H1 & H2). exists m. simpl.
      repeat split; [exact E|lia..].
    + apply IH2 in H as (m & E & H1 & H2). exists m. simpl.
      repeat split; [exact E|lia..].
  - apply in_flat_map in H as (st1 & Ha & Hb).
    apply IH1 in Ha as (m1 & E1 & Ha1 & Ha2).
    apply IH2 in Hb as (m2 & E2 & Hb1 & Hb2).
    exists (m1 ++ m2). rewrite length_app. simpl. repeat split; [|lia..].
    rewrite E1, E2, app_assoc. reflexivity.
  - apply in_map_iff in H as (st1 & <- & H1).
    apply IH1 in H1 as (m & E & H1 & _). exists m. simpl.
    repeat split; [exact E|exact H1|].
    rewrite E, consumed_app. unfold glen. simpl. lia.
Qed.

(** If the template never expands to more than the match it replaces, the
    scan never returns more than it was given. *)
Lemma sub_scan_length r t :
  (forall b s st, re_match r b s = Some st ->
     (length (expand t (grp st)) <= length s - length (rest st))%nat) ->
  forall s b k, (length (sub_scan r t b s k) <= length s - k)%nat.
Proof.
  intros Hm. induction s as [|c s IH]; intros b k.
  - destruct k as [|k]; simpl; [|lia].
    destruct (re_match r b []) as [st|] eqn:E; [|simpl; lia].
    apply Hm in E. simpl in E. rewrite length_app. simpl. lia.
  - destruct k as [|k]; simpl sub_scan.
    + destruct (re_match r b (c :: s)) as [st|] eqn:E.
      * apply Hm in E. rewrite length_app.
        change (length (c :: s)) with (S (length s)) in E |- *.
        destruct (S (length s) - length (rest st))%nat as [|n] eqn:En.
        -- simpl. specialize (IH (c =? LF) 0%nat). lia.
        -- specialize (IH (c =? LF) n). lia.
      * specialize (IH (c =? LF) 0%nat). simpl. lia.
    + specialize (IH (c =? LF) k). simpl. lia.
Qed.

Lemma match_span r b s st :
  re_match r b s = Some st ->
  (min_len r <= length s - length (rest st))%nat /\
  (out_len r + glen (grp st) <= length s - length (rest st))%nat.
Proof.
  intros H. apply head_In, rmatch_len in H as (m & E & H1 & H2).
  simpl in E, H2. rewrite E, length_app. unfold glen in H2 at 2. simpl in H2.
  lia.
Qed.

(** The rewrite never makes a text longer: each rule replaces a match by a
    template expansion that is no longer than the match. *)
Theorem rewrite_never_longer (T : str) :
  (length (fix_logging_text T) <= length T)%nat.
Proof.
  assert (Hcall : forall p, (13 <= out_len p)%nat -> forall s,
            (length (sub p debug_call s) <= length s)%nat).
  { intros p Hp s. unfold sub, sub_at.
    pose proof (sub_scan_length p debug_call) as H.
    specialize (fun Hm => H Hm s true 0%nat). rewrite Nat.sub_0_r in H.
    apply H. intros b s0 st E. apply match_span in E as [_ E].
    unfold expand, debug_call. cbn [flat_map expand_item].
    rewrite !length_app. unfold glen in E.
    change (length (py "addon:Debug(")) with 12%nat.
    change (length (py ")")) with 1%nat. simpl length. lia. }
  assert (Hhead : forall p t, (length (expand t None) <= min_len p)%nat ->
            (forall g, expand t g = expand t None) ->
            forall s, (length (sub p t s) <= length s)%nat).
  { intros p t Hp Hg s. unfold sub, sub_at.
    pose proof (sub_scan_length p t) as H.
    specialize (fun Hm => H Hm s true 0%nat). rewrite Nat.sub_0_r in H.
    apply H. intros b s0 st E. apply match_span in E as [E _].
    rewrite Hg. lia. }
  unfold fix_logging_text, rule1, rule2, rule3, rule4, rule5, rule6.
  etransitivity; [apply Hhead; [vm_compute; lia|reflexivity]|].
  etransitivity; [apply Hhead; [vm_compute; lia|reflexivity]|].
  etransitivity; [apply Hcall; vm_compute; lia|].
  etransitivity; [apply Hcall; vm_compute; lia|].
  etransitivity; [apply Hcall; vm_compute; lia|].
  apply Hcall. vm_compute. lia.
Qed.

End Lengths.

Section Blocks.

Lemma concat_replicate_snoc {A} n (L : list A) :
  concat (replicate n L) ++ L = concat (replicate (S n) L).
Proof.
  induction n as [|n IH]; simpl.
  - symmetry. apply app_nil_r.
  - simpl in IH. rewrite <- app_assoc, IH. reflexivity.
Qed.

Lemma star_states_stop k b s g :
  stops k s -> star_states k b s g = [MState b s g].
Proof. destruct s as [|c s]; simpl; [reflexivity|]. intros ->. reflexivity. Qed.

Lemma nl_dead r b s g :
  stops CSpace s -> rmatch (Lit nl -+- r) (MState b s g) = [].
Proof.
  destruct s as [|c s]; [reflexivity|]. simpl. intros Hc.
  destruct (N.eqb_spec c 10) as [->|]; [discriminate|reflexivity].
Qed.

Lemma occ_LF_cons c W :
  occ LF (c :: W) = if c =? LF then S (occ LF W) else occ LF W.
Proof.
  unfold occ. simpl. destruct (N.eq_dec c LF) as [->|Hn].
  - reflexivity.
  - destruct (N.eqb_spec c LF); [contradiction|reflexivity].
Qed.

(** [\s*\n\s*] over a run of white space in front of a character that is
    not white space: each line feed of the run is a way to match, and all
    of them leave the matcher at the end of the run. *)
Lemma blank_break_rmatch r b W s g :
  Forall (fun c => is_space c = true) W -> stops CSpace s ->
  (forall st, starts_in CSpace st -> rmatch r st = []) ->
  rmatch (Star CSpace -+- Lit nl -+- Star CSpace -+- r) (MState b (W ++ s) g)
  = concat (replicate (occ LF W) (rmatch r (MState (bol_after b W) s g))).
Proof.
  intros HW Hs Hdead. revert b. induction HW as [|c W Hc HW IH]; intros b.
  - change (rmatch (Star CSpace -+- Lit nl -+- Star CSpace -+- r)
              (MState b ([] ++ s) g))
      with (flat_map (rmatch (Lit nl -+- Star CSpace -+- r))
              (star_states CSpace b s g)).
    rewrite star_states_stop by exact Hs. cbn [flat_map].
    rewrite nl_dead by exact Hs. reflexivity.
  - change (rmatch (Star CSpace -+- Lit nl -+- Star CSpace -+- r)
              (MState b ((c :: W) ++ s) g))
      with (flat_map (rmatch (Lit nl -+- Star CSpace -+- r))
              (star_states CSpace b (c :: W ++ s) g)).
    simpl star_states. simpl in Hc. rewrite Hc, flat_map_app.
    change (flat_map (rmatch (Lit nl -+- Star CSpace -+- r))
              (star_states CSpace (c =? LF) (W ++ s) g))
      with (rmatch (Star CSpace -+- Lit nl -+- Star CSpace -+- r)
              (MState (c =? LF) (W ++ s) g)).
    rewrite IH, bol_after_cons, occ_LF_cons.
    cbn [flat_map]. rewrite app_nil_r.
    change (rmatch (Lit nl -+- Star CSpace -+- r) (MState b (c :: W ++ s) g))
      with (flat_map (rmatch (Star CSpace -+- r))
              (match lit_match nl b (c :: W ++ s) with
               | Some (b', s') => [MState b' s' g]
               | None => []
               end)).
    simpl lit_match. destruct (N.eqb_spec c 10) as [->|Hne].
    + cbn [flat_map]. rewrite app_nil_r, rmatch_star_cat by assumption.
      change (10 =? LF) with true. apply concat_replicate_snoc.
    + destruct (N.eqb_spec c LF) as [->|_]; [contradiction|].
      simpl. apply app_nil_r.
Qed.

Lemma rmatch_lit_exact l b s g :
  rmatch (Lit l) (MState b (l ++ s) g) = [MState (bol_after b l) s g].
Proof. simpl. rewrite lit_match_app. reflexivity. Qed.

Lemma blank_break_occ W : In LF W -> exists n, occ LF W = S n.
Proof.
  intros H. unfold occ. apply (count_occ_In N.eq_dec) in H.
  destruct (count_occ N.eq_dec W LF) as [|n]; [lia|]. exists n. reflexivity.
Qed.

Variables (P' E' : str).

Let block : regex :=
  Lit (py "if addon.DEBUG then")
  -+- Star CSpace -+- Lit nl -+- Star CSpace
  -+- Lit (112 :: P')
  -+- Group (Plus (CNot RPAREN))
  -+- Lit (RPAREN :: E')
  -+- Star CSpace -+- Lit nl -+- Star CSpace
  -+- Lit (py "end").

(** A block pattern at a multi-line guard: the capture is the run up to
    the first closing parenthesis. *)
Lemma block_hit b w1 a w2 s :
  blank_break w1 -> blank_break w2 -> a <> [] -> ~ In RPAREN a ->
  re_match block b
    (py "if addon.DEBUG then" ++ w1 ++ (112 :: P') ++ a ++ (RPAREN :: E')
     ++ w2 ++ py "end" ++ s)
  = Some (MState false s (Some a)).
Proof.
  intros [Hw1 Hn1] [Hw2 Hn2] Hne Ha. unfold re_match, block.
  destruct (blank_break_occ w1 Hn1) as (n1 & E1).
  destruct (blank_break_occ w2 Hn2) as (n2 & E2).
  rewrite rmatch_lit_app, blank_break_rmatch.
  - rewrite rmatch_lit_app, rmatch_plus_group_cat.
    + rewrite rmatch_lit_app, blank_break_rmatch.
      * rewrite rmatch_lit_exact, E1, E2. reflexivity.
      * exact Hw2.
      * reflexivity.
      * intros st Hst. apply (lit_dead CSpace); [reflexivity|exact Hst].
    + exact Hne.
    + apply notin_class, Ha.
    + reflexivity.
    + intros st Hst. apply (lit_cat_dead (CNot RPAREN)); [|exact Hst].
      reflexivity.
  - exact Hw1.
  - reflexivity.
  - intros st Hst. apply (lit_cat_dead CSpace); [reflexivity|exact Hst].
Qed.

Lemma block_sub t b w1 a w2 s :
  blank_break w1 -> blank_break w2 -> a <> [] -> ~ In RPAREN a ->
  sub_at block t b
    (py "if addon.DEBUG then" ++ w1 ++ (112 :: P') ++ a ++ (RPAREN :: E')
     ++ w2 ++ py "end" ++ s)
  = expand t (Some a) ++ sub_at block t false s.
Proof.
  intros H1 H2 Hne Ha.
  pose proof (block_hit b w1 a w2 s H1 H2 Hne Ha) as H.
  replace (py "if addon.DEBUG then" ++ w1 ++ (112 :: P') ++ a
           ++ (RPAREN :: E') ++ w2 ++ py "end" ++ s)
    with ((py "if addon.DEBUG then" ++ w1 ++ (112 :: P') ++ a
           ++ (RPAREN :: E') ++ w2 ++ py "end") ++ s) in *
    by (rewrite <- !app_assoc; reflexivity).
  rewrite (sub_at_match block t b _ s _ H eq_refl).
  - simpl grp. f_equal. f_equal.
    rewrite !app_assoc, bol_after_app. reflexivity.
  - discriminate.
Qed.

End Blocks.

Section BlockRewrite.

Lemma lit_match_app_both l l2 b s :
  lit_match (l ++ l2) b (l ++ s) = lit_match l2 (bol_after b l) s.
Proof.
  revert b. induction l as [|a l IH]; intros b; [reflexivity|].
  simpl. rewrite N.eqb_refl, IH, bol_after_cons. reflexivity.
Qed.

(** The one-line guard head has a single space between [then] and
    [print]: it fails on a break that holds a line feed. *)
Lemma lit_space_p l b W s :
  Forall (fun c => is_space c = true) W -> In LF W ->
  lit_match (32 :: 112 :: l) b (W ++ 112 :: s) = None.
Proof.
  intros HW Hin. destruct W as [|c W]; [destruct Hin|].
  simpl. destruct (N.eqb_spec c 32) as [->|]; [|reflexivity].
  destruct Hin as [Hin|Hin]; [discriminate|].
  destruct W as [|d W]; [destruct Hin|].
  inversion HW as [|? ? _ HW']; subst. inversion HW' as [|? ? Hd _]; subst.
  simpl. destruct (N.eqb_spec d 112) as [->|]; [discriminate|reflexivity].
Qed.

Lemma space_run_no_lparen W :
  Forall (fun c => is_space c = true) W -> ~ In LPAREN W.
Proof.
  intros HW Hin. rewrite List.Forall_forall in HW. apply HW in Hin.
  discriminate.
Qed.

(** Rules 1 and 2 copy a multi-line guard whose text after the print head
    has no opening parenthesis. *)
Lemma one_line_rule_copies_block p l3 r' t b w1 P R :
  p = Lit (105 :: py "f addon.DEBUG then" ++ 32 :: 112 :: l3) -+- r' ->
  (1 <= min_occ LPAREN p)%nat ->
  blank_break w1 ->
  clash_all (105 :: py "f addon.DEBUG then" ++ 32 :: 112 :: l3) (112 :: P)
  = true ->
  ~ In LPAREN R ->
  sub_at p t b ((105 :: py "f addon.DEBUG then") ++ w1 ++ (112 :: P) ++ R)
  = (105 :: py "f addon.DEBUG then") ++ w1 ++ (112 :: P) ++ R.
Proof.
  intros Hp Hocc [Hw Hn] Hcl HR.
  change ((105 :: py "f addon.DEBUG then") ++ w1 ++ (112 :: P) ++ R)
    with (105 :: py "f addon.DEBUG then" ++ w1 ++ (112 :: P) ++ R).
  rewrite sub_at_nomatch.
  - f_equal. subst p.
    rewrite clash_skip by reflexivity.
    rewrite (class_run_skip t CSpace) by (exact Hw || reflexivity).
    rewrite clash_skip by exact Hcl.
    rewrite sub_at_no_search; [reflexivity|].
    apply (search_at_occ _ LPAREN). rewrite (occ_notin _ _ HR). exact Hocc.
  - subst p. unfold re_match.
    change (rmatch (Lit (105 :: py "f addon.DEBUG then" ++ 32 :: 112 :: l3)
                    -+- r')
              (MState b (105 :: py "f addon.DEBUG then" ++ w1 ++ (112 :: P) ++ R)
                 None))
      with (flat_map (rmatch r')
              (match lit_match (py "f addon.DEBUG then" ++ 32 :: 112 :: l3)
                       (105 =? LF)
                       (py "f addon.DEBUG then" ++ w1 ++ 112 :: P ++ R) with
               | Some (b', s') => [MState b' s' None]
               | None => []
               end)).
    rewrite lit_match_app_both, lit_space_p by assumption. reflexivity.
Qed.

Lemma debug_call_expand a :
  expand debug_call (Some a) ++ [] = debug_of a.
Proof.
  unfold debug_of, expand, debug_call.
  cbn [flat_map expand_item default from_option id].
  rewrite !app_nil_r. reflexivity.
Qed.

(** Rule 3 on a formatted multi-line guard, rule 4 on a plain one. *)
Lemma rule3_format_block w1 args w2 :
  blank_break w1 -> blank_break w2 -> args <> [] -> ~ In RPAREN args ->
  rule3 (format_block w1 args w2) = debug_of args.
Proof.
  intros H1 H2 Hne Hr.
  etransitivity;
    [exact (block_sub (py "rint(string.format(") (py ")") debug_call true
              w1 args w2 [] H1 H2 Hne Hr)|].
  rewrite sub_at_empty_text by reflexivity. apply debug_call_expand.
Qed.

Lemma rule4_plain_block w1 args w2 :
  blank_break w1 -> blank_break w2 -> args <> [] -> ~ In RPAREN args ->
  rule4 (plain_block w1 args w2) = debug_of args.
Proof.
  intros H1 H2 Hne Hr.
  etransitivity;
    [exact (block_sub (py "rint(") [] debug_call true
              w1 args w2 [] H1 H2 Hne Hr)|].
  rewrite sub_at_empty_text by reflexivity. apply debug_call_expand.
Qed.

End BlockRewrite.

Section BlockTheorems.

Lemma debug_call_expand_app a u :
  expand debug_call (Some a) ++ u = debug_of a ++ u.
Proof.
  unfold debug_of, expand, debug_call.
  cbn [flat_map expand_item default from_option id].
  rewrite app_nil_r, <- !app_assoc. reflexivity.
Qed.

(** Wherever the scan of rule 3 (rule 4) meets a multi-line guard, with
    white space holding a line feed after [then] and before [end], it
    replaces the guard by the debug call on the text captured up to the
    first closing parenthesis, and goes on after [end]. *)
Theorem block_rules_at_guard (b : bool) (w1 a w2 s : str) :
  blank_break w1 -> blank_break w2 -> a <> [] -> ~ In RPAREN a ->
  sub_at pattern3 debug_call b (format_block w1 a w2 ++ s)
  = debug_of a ++ sub_at pattern3 debug_call false s /\
  sub_at pattern4 debug_call b (plain_block w1 a w2 ++ s)
  = debug_of a ++ sub_at pattern4 debug_call false s.
Proof.
  intros H1 H2 Hne Ha. split.
  - rewrite <- debug_call_expand_app. unfold format_block.
    rewrite <- !app_assoc.
    exact (block_sub (py "rint(string.format(") (py ")") debug_call b
             w1 a w2 s H1 H2 Hne Ha).
  - rewrite <- debug_call_expand_app. unfold plain_block.
    rewrite <- !app_assoc.
    exact (block_sub (py "rint(") [] debug_call b w1 a w2 s H1 H2 Hne Ha).
Qed.

Lemma block_rules_at_guard_witness :
  sub_at pattern4 debug_call true
    (py "if addon.DEBUG then" ++ nl ++ py "  print(f(x)" ++ nl
     ++ py "end) -- rest")
  = py "addon:Debug(f(x)" ++ sub_at pattern4 debug_call false (py ") -- rest").
Proof.
  assert (H1 : blank_break (nl ++ py "  "))
    by (split; [repeat constructor|left; reflexivity]).
  assert (H2 : blank_break nl)
    by (split; [repeat constructor|left; reflexivity]).
  assert (Ha : ~ In RPAREN (py "f(x")) by (vm_compute; intuition discriminate).
  assert (Hne : py "f(x" <> []) by discriminate.
  exact (proj2 (block_rules_at_guard true (nl ++ py "  ") (py "f(x") nl
                  (py ") -- rest") H1 H2 Hne Ha)).
Defined.

(** A multi-line guard around a formatted or a plain print, with
    arguments that are not empty and hold no parenthesis and no line
    feed, is rewritten by the whole rewrite into the debug call on the
    arguments, nothing else left of the guard; rules 1 and 2 leave such a
    guard as it is. *)
Theorem multi_line_guard_rewritten (w1 args w2 : str) :
  blank_break w1 -> blank_break w2 ->
  args <> [] -> ~ In LPAREN args -> ~ In RPAREN args -> ~ In LF args ->
  fix_logging_text (format_block w1 args w2) = debug_of args /\
  fix_logging_text (plain_block w1 args w2) = debug_of args /\
  rule1 (format_block w1 args w2) = format_block w1 args w2 /\
  rule2 (format_block w1 args w2) = format_block w1 args w2 /\
  rule1 (plain_block w1 args w2) = plain_block w1 args w2 /\
  rule2 (plain_block w1 args w2) = plain_block w1 args w2.
Proof.
  intros H1 H2 Hne Hl Hr Hn.
  assert (Hw2 : ~ In LPAREN w2) by (apply space_run_no_lparen, H2).
  assert (Hw1 : ~ In LPAREN w1) by (apply space_run_no_lparen, H1).
  pose proof (debug_of_no_search args) as Hd.
  assert (Hrest : forall r, In r patterns ->
            sub r debug_call (debug_of args) = debug_of args
            /\ sub r debug_head (debug_of args) = debug_of args
            /\ sub r info_head (debug_of args) = debug_of args).
  { intros r Hin. repeat split; apply sub_at_no_search, Hd; assumption. }
  assert (F1 : rule1 (format_block w1 args w2) = format_block w1 args w2).
  { exact (one_line_rule_copies_block pattern1 _ _ debug_call true w1
             (py "rint(string.format(") (args ++ py "))" ++ w2 ++ py "end")
             eq_refl ltac:(vm_compute; lia) H1 eq_refl ltac:(notin)). }
  assert (F2 : rule2 (format_block w1 args w2) = format_block w1 args w2).
  { exact (one_line_rule_copies_block pattern2 _ _ debug_call true w1
             (py "rint(string.format(") (args ++ py "))" ++ w2 ++ py "end")
             eq_refl ltac:(vm_compute; lia) H1 eq_refl ltac:(notin)). }
  assert (P1 : rule1 (plain_block w1 args w2) = plain_block w1 args w2).
  { exact (one_line_rule_copies_block pattern1 _ _ debug_call true w1
             (py "rint(") (args ++ py ")" ++ w2 ++ py "end")
             eq_refl ltac:(vm_compute; lia) H1 eq_refl ltac:(notin)). }
  assert (P2 : rule2 (plain_block w1 args w2) = plain_block w1 args w2).
  { exact (one_line_rule_copies_block pattern2 _ _ debug_call true w1
             (py "rint(") (args ++ py ")" ++ w2 ++ py "end")
             eq_refl ltac:(vm_compute; lia) H1 eq_refl ltac:(notin)). }
  split; [|split; [|repeat split; assumption]]; unfold fix_logging_text.
  - rewrite F1, F2, rule3_format_block by assumption.
    unfold rule4, rule5, rule6.
    rewrite (proj1 (Hrest pattern4 ltac:(simpl; tauto))).
    rewrite (proj1 (proj2 (Hrest pattern5 ltac:(simpl; tauto)))).
    rewrite (proj2 (proj2 (Hrest pattern6 ltac:(simpl; tauto)))).
    reflexivity.
  - assert (E3 : rule3 (plain_block w1 args w2) = plain_block w1 args w2).
    { apply sub_at_no_search, (search_at_occ _ LPAREN).
      unfold plain_block.
      rewrite !occ_app, (occ_notin _ _ Hl), (occ_notin _ _ Hw1),
        (occ_notin _ _ Hw2).
      vm_compute. lia. }
    rewrite P1, P2, E3, rule4_plain_block by assumption.
    unfold rule5, rule6.
    rewrite (proj1 (proj2 (Hrest pattern5 ltac:(simpl; tauto)))).
    rewrite (proj2 (proj2 (Hrest pattern6 ltac:(simpl; tauto)))).
    reflexivity.
Qed.

Lemma multi_line_guard_rewritten_witness :
  fix_logging_text
    (py "if addon.DEBUG then" ++ nl ++ py "    print(string.format(" ++ dq
     ++ py "Session started: %d" ++ dq ++ py ", id))" ++ nl ++ py "end")
  = py "addon:Debug(" ++ dq ++ py "Session started: %d" ++ dq ++ py ", id)".
Proof.
  assert (H1 : blank_break (nl ++ py "    "))
    by (split; [repeat constructor|left; reflexivity]).
  assert (H2 : blank_break nl)
    by (split; [repeat constructor|left; reflexivity]).
  assert (Hne : dq ++ py "Session started: %d" ++ dq ++ py ", id" <> [])
    by discriminate.
  assert (Hl : ~ In LPAREN (dq ++ py "Session started: %d" ++ dq ++ py ", id"))
    by (vm_compute; intuition discriminate).
  assert (Hr : ~ In RPAREN (dq ++ py "Session started: %d" ++ dq ++ py ", id"))
    by (vm_compute; intuition discriminate).
  assert (Hn : ~ In LF (dq ++ py "Session started: %d" ++ dq ++ py ", id"))
    by (vm_compute; intuition discriminate).
  exact (proj1 (multi_line_guard_rewritten (nl ++ py "    ")
                  (dq ++ py "Session started: %d" ++ dq ++ py ", id") nl
                  H1 H2 Hne Hl Hr Hn)).
Defined.

End BlockTheorems.

Section FixedPoints.

(** A debug call whose arguments hold no parenthesis and no line feed is
    left as it is by the rewrite: what rules 1 to 4 write for such
    arguments is not rewritten again. *)
Theorem debug_call_is_fixed (args : str) :
  ~ In LPAREN args -> ~ In RPAREN args -> ~ In LF args ->
  fix_logging_text (debug_of args) = debug_of args.
Proof.
  intros Hl Hr Hn. apply unmatched_unchanged. intros r Hin.
  apply debug_of_no_search; assumption.
Qed.

Lemma debug_call_is_fixed_witness :
  fix_logging_text (py "addon:Debug(" ++ loading_args ++ py ")")
  = py "addon:Debug(" ++ loading_args ++ py ")".
Proof.
  apply (debug_call_is_fixed loading_args);
    vm_compute; intuition discriminate.
Defined.

End FixedPoints.

(** * Texts made of lines *)

Section Occurrences.

Lemma starts_with_sep (c : char) l x y :
  ~ In c l -> starts_with l (x ++ c :: y) = starts_with l x.
Proof.
  revert x. induction l as [|a l IH]; intros x H; [destruct x; reflexivity|].
  destruct x as [|x0 x]; simpl.
  - destruct (N.eqb_spec c a) as [->|]; [|reflexivity].
    exfalso. apply H. left. reflexivity.
  - rewrite IH; [reflexivity|]. intros Hin. apply H. right. exact Hin.
Qed.

(** An occurrence of [l] cannot lie across a character [l] does not
    have. *)
Lemma contains_sep (c a : char) l x y :
  ~ In c (a :: l) ->
  contains (a :: l) (x ++ c :: y) = contains (a :: l) x || contains (a :: l) y.
Proof.
  intros H. induction x as [|x0 x IH].
  - change ([] ++ c :: y) with (c :: y).
    change (contains (a :: l) (c :: y))
      with (starts_with (a :: l) (c :: y) || contains (a :: l) y).
    change (c :: y) with ([] ++ c :: y) at 1.
    rewrite starts_with_sep by exact H. reflexivity.
  - change ((x0 :: x) ++ c :: y) with (x0 :: x ++ c :: y).
    change (contains (a :: l) (x0 :: x ++ c :: y))
      with (starts_with (a :: l) (x0 :: x ++ c :: y)
            || contains (a :: l) (x ++ c :: y)).
    change (contains (a :: l) (x0 :: x))
      with (starts_with (a :: l) (x0 :: x) || contains (a :: l) x).
    change (x0 :: x ++ c :: y) with ((x0 :: x) ++ c :: y).
    rewrite starts_with_sep, IH, orb_assoc by exact H. reflexivity.
Qed.

Lemma contains_suffix l u x : contains l (u ++ x) = false -> contains l x = false.
Proof.
  intros H. destruct (contains l x) eqn:E; [|reflexivity].
  rewrite (contains_app_r l x u E) in H. discriminate.
Qed.

Lemma contains_starts l x : contains l x = false -> starts_with l x = false.
Proof.
  destruct x; simpl; intros H; apply orb_false_iff in H as [H _]; exact H.
Qed.

Lemma starts_with_refl l s : starts_with l (l ++ s) = true.
Proof.
  induction l as [|a l IH]; [reflexivity|]. simpl.
  rewrite N.eqb_refl. exact IH.
Qed.

Lemma starts_with_sound l s :
  starts_with l s = true -> exists v, s = l ++ v.
Proof.
  revert s. induction l as [|a l IH]; intros s H; [exists s; reflexivity|].
  destruct s as [|c s]; [discriminate|]. simpl in H.
  apply andb_true_iff in H as [Hc H]. apply N.eqb_eq in Hc as ->.
  apply IH in H as (v & ->). exists v. reflexivity.
Qed.

Lemma contains_sound l x :
  contains l x = true -> exists u v, x = u ++ l ++ v.
Proof.
  induction x as [|c x IH]; intros H.
  - simpl in H. rewrite orb_false_r in H.
    apply starts_with_sound in H as (v & E). exists [], v. exact E.
  - simpl in H. apply orb_true_iff in H as [H|H].
    + apply (starts_with_sound l (c :: x)) in H as (v & E).
      exists [], v. exact E.
    + apply IH in H as (u & v & ->). exists (c :: u), v. reflexivity.
Qed.

Lemma lit_match_starts l l' b s res :
  lit_match (l ++ l') b s = Some res -> starts_with l s = true.
Proof.
  destruct res as [b' s']. intros H. apply lit_match_sound in H as [-> _].
  rewrite <- app_assoc. apply starts_with_refl.
Qed.

(** A literal that begins with [l] fails in a text where [l] does not
    occur, ended by a character [l] does not have. *)
Lemma lit_match_absent (c : char) l l' b x s :
  ~ In c l -> contains l x = false -> lit_match (l ++ l') b (x ++ c :: s) = None.
Proof.
  intros Hc Hx. destruct (lit_match (l ++ l') b (x ++ c :: s)) eqn:E;
    [|reflexivity].
  apply lit_match_starts in E. rewrite starts_with_sep in E by exact Hc.
  rewrite (contains_starts _ _ Hx) in E. discriminate.
Qed.

(** A literal with a character [d] fails on a run without [d] that is
    ended by a character the literal does not have. *)
Lemma lit_match_needs (c d : char) l b a s :
  ~ In c l -> In d l -> ~ In d a -> lit_match l b (a ++ c :: s) = None.
Proof.
  revert l b. induction a as [|x a IH]; intros l b Hc Hd Ha.
  - destruct l as [|y l]; [destruct Hd|]. simpl.
    destruct (N.eqb_spec c y) as [->|]; [|reflexivity].
    exfalso. apply Hc. left. reflexivity.
  - destruct l as [|y l]; [destruct Hd|]. simpl.
    destruct (N.eqb_spec x y) as [->|]; [|reflexivity].
    apply IH.
    + intros H. apply Hc. right. exact H.
    + destruct Hd as [->|Hd]; [|exact Hd]. exfalso. apply Ha. left. reflexivity.
    + intros H. apply Ha. right. exact H.
Qed.

End Occurrences.

Section LineScan.

Variable t : list titem.

Lemma rmatch_lit_none l r b s g :
  lit_match l b s = None -> rmatch (Lit l -+- r) (MState b s g) = [].
Proof. intros H. simpl. rewrite H. reflexivity. Qed.

Lemma opener_head l' :
  opener ++ l' = 105 :: py "f addon.DEBUG then" ++ l'.
Proof. reflexivity. Qed.

(** A guard rule copies a text without the guard opener, and the line
    feed that ends it. *)
Lemma guard_rule_copies_quiet p l' r' b x s :
  p = Lit (opener ++ l') -+- r' -> contains opener x = false ->
  sub_at p t b (x ++ LF :: s) = x ++ LF :: sub_at p t true s.
Proof.
  intros -> Hx. rewrite sub_at_skip_prefix.
  - apply (f_equal (app x)). rewrite sub_at_nomatch; [reflexivity|].
    unfold re_match. rewrite rmatch_lit_none; [reflexivity|].
    rewrite opener_head. apply lit_match_head_ne. discriminate.
  - intros u c v ->. unfold re_match.
    rewrite rmatch_lit_none; [reflexivity|].
    change (c :: v ++ LF :: s) with ((c :: v) ++ LF :: s).
    apply lit_match_absent.
    + vm_compute. intuition discriminate.
    + exact (contains_suffix _ _ _ Hx).
Qed.

Lemma bol_after_false_no_LF u : ~ In LF u -> bol_after false u = false.
Proof.
  intros H. destruct u as [|c u]; [reflexivity|].
  apply bol_after_no_LF; [discriminate|exact H].
Qed.

(** A rule anchored at line starts copies the rest of a line it is
    inside of, and the line feed. *)
Lemma bol_copy r x s :
  ~ In LF x ->
  sub_at (Bol -+- r) t false (x ++ LF :: s)
  = x ++ LF :: sub_at (Bol -+- r) t true s.
Proof.
  intros Hx. rewrite sub_at_skip_prefix.
  - apply (f_equal (app x)). rewrite bol_after_false_no_LF by exact Hx.
    rewrite sub_at_nomatch; [reflexivity|].
    unfold re_match. rewrite rmatch_bol. reflexivity.
  - intros u c v ->. rewrite bol_after_false_no_LF.
    + unfold re_match. rewrite rmatch_bol. reflexivity.
    + intros Hin. apply Hx. apply in_or_app. left. exact Hin.
Qed.

Variables (k : cclass) (x : char) (F : str) (r : regex).

Let P : regex := Bol -+- Star k -+- Lit (x :: F) -+- r.

Hypothesis Hx : in_class k x = false.

Lemma anchored_fail b a pre s :
  Forall (fun c => in_class k c = true) a -> stops k pre -> pre <> [] ->
  (forall b', lit_match (x :: F) b' (pre ++ s) = None) ->
  re_match P b (a ++ pre ++ s) = None.
Proof.
  intros Ha Hst Hne Hfail. unfold re_match, P. rewrite rmatch_bol. simpl bol.
  destruct b; [|reflexivity].
  rewrite rmatch_star_cat.
  - rewrite rmatch_lit_none by apply Hfail. reflexivity.
  - exact Ha.
  - destruct pre; [contradiction|exact Hst].
  - intros st Hst'. apply (lit_cat_dead k); assumption.
Qed.

(** An anchored rule copies white space followed by a line on which its
    literal fails, and the line feed that ends the line. *)
Lemma anchored_copy b ws body s :
  Forall (fun c => in_class k c = true) ws -> stops k body -> body <> [] ->
  ~ In LF body ->
  (forall b', lit_match (x :: F) b' (body ++ LF :: s) = None) ->
  sub_at P t b (ws ++ body ++ LF :: s)
  = ws ++ body ++ LF :: sub_at P t true s.
Proof.
  intros Hws Hst Hne HLF Hfail.
  rewrite sub_at_skip_prefix.
  - apply (f_equal (app ws)). rewrite sub_at_skip_prefix.
    + apply (f_equal (app body)).
      rewrite (bol_after_no_LF _ body) by assumption.
      rewrite sub_at_nomatch; [reflexivity|].
      unfold re_match, P. rewrite rmatch_bol. reflexivity.
    + intros u c v E. destruct u as [|d u].
      * simpl in E. subst body.
        apply (anchored_fail _ [] (c :: v) (LF :: s)); try assumption.
        constructor.
      * rewrite (bol_after_no_LF _ (d :: u)).
        -- unfold re_match, P. rewrite rmatch_bol. reflexivity.
        -- discriminate.
        -- intros Hin. apply HLF. rewrite E. apply in_or_app. left. exact Hin.
  - intros u c v ->.
    change (c :: v ++ body ++ LF :: s) with ((c :: v) ++ body ++ LF :: s).
    apply anchored_fail; try assumption.
    apply Forall_app in Hws as [_ Hws]. exact Hws.
Qed.

End LineScan.

Section LineValidity.

Lemma debug_of_no_print a :
  ~ In LPAREN a -> ~ In RPAREN a -> contains print_call (debug_of a) = false.
Proof.
  intros Hl Hr. destruct (contains print_call (debug_of a)) eqn:E;
    [|reflexivity].
  exfalso. apply contains_sound in E as (u & v & E).
  assert (Hocc : occ LPAREN (debug_of a) = 1%nat).
  { unfold debug_of. rewrite !occ_app, (occ_notin _ a Hl). reflexivity. }
  assert (Hu : ~ In LPAREN (u ++ py "print")).
  { apply (count_occ_not_In N.eq_dec). rewrite E in Hocc. unfold occ in Hocc.
    rewrite !count_occ_app in Hocc. rewrite count_occ_app.
    simpl in Hocc. simpl. lia. }
  assert (E' : py "addon:Debug" ++ LPAREN :: (a ++ py ")")
               = (u ++ py "print") ++ LPAREN :: v).
  { transitivity (debug_of a).
    - unfold debug_of. reflexivity.
    - rewrite E. unfold print_call. rewrite <- !app_assoc. reflexivity. }
  apply split_unique in E' as [E' _]; [|notin|exact Hu].
  change (py "addon:Debug") with (py "addon:" ++ py "Debug") in E'.
  apply app_inj_2 in E' as [_ E']; [|reflexivity].
  vm_compute in E'. discriminate.
Qed.

Lemma debug_of_no_opener a :
  contains opener a = false -> contains opener (debug_of a) = false.
Proof.
  intros Ha. unfold debug_of.
  change (py "addon:Debug(" ++ a ++ py ")")
    with (py "addon:Debug" ++ LPAREN :: (a ++ RPAREN :: [])).
  change opener with (105 :: py "f addon.DEBUG then") in *.
  rewrite contains_sep by notin. rewrite contains_sep by notin.
  rewrite Ha. reflexivity.
Qed.

Lemma debug_of_valid w a :
  blank w -> clean_args a -> valid (Inert w (debug_of a)).
Proof.
  intros Hw (Hne & Hl & Hr & Hn & Ho). split; [exact Hw|]. split.
  - eexists _, _. split; [reflexivity|reflexivity].
  - split; [unfold debug_of; notin|]. split.
    + apply debug_of_no_print; assumption.
    + apply debug_of_no_opener, Ho.
Qed.

Lemma call_head_quiet h tail :
  h = py "addon:Info(" \/ h = py "addon:Debug(" ->
  quiet tail -> quiet (h ++ dq ++ tail).
Proof.
  intros Hh (Hn & Hp & Ho). unfold quiet.
  change (h ++ dq ++ tail) with (h ++ 34 :: tail).
  change print_call with (112 :: py "rint(") in *.
  change opener with (105 :: py "f addon.DEBUG then") in *.
  split; [|split].
  - destruct Hh as [->| ->]; notin.
  - rewrite contains_sep by notin. rewrite Hp.
    destruct Hh as [->| ->]; reflexivity.
  - rewrite contains_sep by notin. rewrite Ho.
    destruct Hh as [->| ->]; reflexivity.
Qed.

Lemma call_head_valid h tail :
  h = py "addon:Info(" \/ h = py "addon:Debug(" ->
  quiet tail -> valid (Inert (py "    ") (h ++ dq ++ tail)).
Proof.
  intros Hh Hq. split; [repeat constructor|]. split.
  - destruct Hh as [->| ->]; eexists _, _; split; reflexivity.
  - apply call_head_quiet; assumption.
Qed.

(** Each rule hands the next one lines the next one can meet. *)
Lemma step_before k l :
  (1 <= k <= 6)%nat -> before k l -> before (S k) (step k l).
Proof.
  intros Hk [Hv Hkind].
  destruct l as [w body|w a|w a|w w1 a w2|w w1 a w2|w W tail|w W tail];
    destruct k as [|[|[|[|[|[|[|k]]]]]]]; try lia; cbn [step];
    try (split; [exact Hv|cbn; lia || exact I]).
  all: try (split; [|exact I]).
  - apply debug_of_valid; apply Hv.
  - apply debug_of_valid; apply Hv.
  - apply debug_of_valid; apply Hv.
  - apply debug_of_valid; apply Hv.
  - destruct Hv as (_ & _ & Hq).
    apply (call_head_valid (py "addon:Info(")); [left; reflexivity|exact Hq].
  - destruct Hv as (_ & _ & Hq).
    apply (call_head_valid (py "addon:Debug(")); [right; reflexivity|exact Hq].
Qed.

Lemma settle_steps l :
  step 6 (step 5 (step 4 (step 3 (step 2 (step 1 l))))) = settle l.
Proof. destruct l; reflexivity. Qed.

Lemma settle_valid l : valid l -> valid (settle l).
Proof.
  destruct l as [w body|w a|w a|w w1 a w2|w w1 a w2|w W tail|w W tail]; intros Hv; cbn [settle].
  - exact Hv.
  - apply debug_of_valid; apply Hv.
  - apply debug_of_valid; apply Hv.
  - apply debug_of_valid; apply Hv.
  - apply debug_of_valid; apply Hv.
  - destruct Hv as (_ & _ & Hq).
    apply (call_head_valid (py "addon:Info(")); [left; reflexivity|exact Hq].
  - destruct Hv as (_ & _ & Hq).
    apply (call_head_valid (py "addon:Debug(")); [right; reflexivity|exact Hq].
Qed.

Lemma settle_settle l : settle (settle l) = settle l.
Proof. destruct l; reflexivity. Qed.

End LineValidity.

Section LineRules.

(** The guard rules copy an inert line and a standalone print line. *)
Lemma guard_rule_line p l' r' t l s :
  p = Lit (opener ++ l') -+- r' -> valid l ->
  match l with Inert _ _ | InfoPrint _ _ _ | DebugPrint _ _ _ => True
             | _ => False end ->
  sub_at p t true (render l ++ LF :: s)
  = render l ++ LF :: sub_at p t true s.
Proof.
  intros -> Hv Hkind.
  destruct l as [w body|w a|w a|w w1 a w2|w w1 a w2|w W tail|w W tail]; try contradiction;
    cbn [render].
  - destruct Hv as (Hw & _ & _ & _ & Ho).
    rewrite <- !app_assoc. rewrite opener_head.
    rewrite (class_run_skip t CSpace) by (exact Hw || reflexivity).
    rewrite <- opener_head.
    rewrite (guard_rule_copies_quiet t (Lit (opener ++ l') -+- r') l' r'
               _ body s eq_refl Ho).
    reflexivity.
  - destruct Hv as (Hw & HW & _ & _ & Ho).
    replace ((w ++ print_head ++ W ++ tail) ++ LF :: s)
      with (w ++ (print_head ++ W) ++ (tail ++ LF :: s))
      by (rewrite <- !app_assoc; reflexivity).
    simpl in HW. destruct HW as [<-|[<-|[<-|[]]]].
    all: rewrite (guard_rule_copies t (Lit (opener ++ l') -+- r')
                    (py "f addon.DEBUG then" ++ l') r' w _ _ eq_refl)
           by (assumption || reflexivity || discriminate || notin).
    all: rewrite (guard_rule_copies_quiet t (Lit (opener ++ l') -+- r') l' r'
                    _ tail s eq_refl Ho).
    all: rewrite <- !app_assoc; reflexivity.
  - destruct Hv as (Hw & HW & _ & _ & Ho).
    replace ((w ++ format_head ++ W ++ tail) ++ LF :: s)
      with (w ++ (format_head ++ W) ++ (tail ++ LF :: s))
      by (rewrite <- !app_assoc; reflexivity).
    simpl in HW. destruct HW as [<-|[<-|[<-|[<-|[<-|[]]]]]].
    all: rewrite (guard_rule_copies t (Lit (opener ++ l') -+- r')
                    (py "f addon.DEBUG then" ++ l') r' w _ _ eq_refl)
           by (assumption || reflexivity || discriminate || notin).
    all: rewrite (guard_rule_copies_quiet t (Lit (opener ++ l') -+- r') l' r'
                    _ tail s eq_refl Ho).
    all: rewrite <- !app_assoc; reflexivity.
Qed.

End LineRules.

Section LineRules12.

Lemma skip_blank p l r' t w s :
  p = Lit (105 :: l) -+- r' -> blank w ->
  sub_at p t true (w ++ s) = w ++ sub_at p t (bol_after true w) s.
Proof.
  intros -> Hw. apply (class_run_skip t CSpace); [reflexivity|exact Hw].
Qed.

Lemma copy_LF p l r' t b s :
  p = Lit (105 :: l) -+- r' ->
  sub_at p t b (LF :: s) = LF :: sub_at p t true s.
Proof.
  intros ->. rewrite sub_at_nomatch; [reflexivity|].
  unfold re_match. rewrite rmatch_lit_none; [reflexivity|].
  apply lit_match_head_ne. discriminate.
Qed.

(** The rest of a one-line guard after its first letter has no guard
    opener in it. *)
Lemma guard_rest_quiet G a E :
  contains opener G = false -> contains opener E = false ->
  contains opener a = false ->
  contains opener (G ++ LPAREN :: a ++ RPAREN :: E) = false.
Proof.
  intros HG HE Ha. change opener with (105 :: py "f addon.DEBUG then") in *.
  rewrite contains_sep by notin. rewrite contains_sep by notin.
  rewrite HG, Ha, HE. reflexivity.
Qed.

Lemma blank_no_head w : blank w -> ~ In 105 w.
Proof.
  intros Hw Hin. unfold blank in Hw. rewrite List.Forall_forall in Hw.
  apply Hw in Hin. discriminate.
Qed.

(** A text without the first letter of the guard opener has no guard
    opener. *)
Lemma no_head_quiet x : ~ In 105 x -> contains opener x = false.
Proof.
  induction x as [|c x IH]; intros H; [reflexivity|].
  change (contains opener (c :: x))
    with ((c =? 105) && starts_with (py "f addon.DEBUG then") x
          || contains opener x).
  rewrite IH by (intros Hin; apply H; right; exact Hin).
  destruct (N.eqb_spec c 105) as [->|]; [|reflexivity].
  exfalso. apply H. left. reflexivity.
Qed.

(** What follows the first letter of a multi-line guard, with the print
    head [112 :: H'] and the text [E] between the closing parenthesis of
    the arguments and the white space before [end]. *)
Let block_rest (w1 H' a E w2 : str) : str :=
  py "f addon.DEBUG then" ++ w1 ++ (112 :: H') ++ [LPAREN] ++ a
  ++ [RPAREN] ++ E ++ w2 ++ py "end".

Lemma plain_block_text w w1 a w2 s :
  render (PlainBlock w w1 a w2) ++ s
  = w ++ 105 :: block_rest w1 (py "rint") a [] w2 ++ s.
Proof.
  cbn [render]. unfold plain_block, block_rest. rewrite <- !app_assoc.
  reflexivity.
Qed.

Lemma format_block_text w w1 a w2 s :
  render (FormatBlock w w1 a w2) ++ s
  = w ++ 105 :: block_rest w1 (py "rint(string.format") a (py ")") w2 ++ s.
Proof.
  cbn [render]. unfold format_block, block_rest. rewrite <- !app_assoc.
  reflexivity.
Qed.

Lemma block_rest_quiet w1 H' a E w2 :
  blank w1 -> blank w2 -> contains opener a = false ->
  contains opener H' = false -> ~ In 105 E ->
  contains opener (block_rest w1 H' a E w2) = false.
Proof.
  intros H1 H2 Ha HH HE. apply blank_no_head in H1, H2.
  assert (Q1 : contains opener (py "f addon.DEBUG then" ++ w1) = false)
    by (apply no_head_quiet; notin).
  assert (Q2 : contains opener (E ++ w2 ++ py "end") = false)
    by (apply no_head_quiet; notin).
  unfold block_rest.
  replace (py "f addon.DEBUG then" ++ w1 ++ (112 :: H') ++ [LPAREN] ++ a
           ++ [RPAREN] ++ E ++ w2 ++ py "end")
    with ((py "f addon.DEBUG then" ++ w1)
          ++ 112 :: (H' ++ LPAREN :: (a ++ RPAREN :: (E ++ w2 ++ py "end"))))
    by (rewrite <- !app_assoc; reflexivity).
  change opener with (105 :: py "f addon.DEBUG then") in *.
  rewrite (contains_sep 112 105 _ (py "f addon.DEBUG then" ++ w1)) by notin.
  rewrite (contains_sep LPAREN 105 _ H') by notin.
  rewrite (contains_sep RPAREN 105 _ a) by notin.
  rewrite Q1, HH, Ha, Q2. reflexivity.
Qed.

(** A guard rule that fails at the opener of a guard copies the guard
    when no other opener follows in it. *)
Lemma guard_rule_at_opener p l' r' t w X s :
  p = Lit (opener ++ l') -+- r' -> blank w ->
  contains opener X = false ->
  (forall b, re_match p b (105 :: X ++ LF :: s) = None) ->
  sub_at p t true (w ++ 105 :: X ++ LF :: s)
  = w ++ 105 :: X ++ LF :: sub_at p t true s.
Proof.
  intros -> Hw HX Hfail.
  rewrite (skip_blank _ (py "f addon.DEBUG then" ++ l') r' t w _ eq_refl Hw).
  apply (f_equal (app w)).
  rewrite sub_at_nomatch by apply Hfail.
  apply (f_equal (cons 105)).
  apply (guard_rule_copies_quiet t _ l' r' _ X s eq_refl HX).
Qed.

(** The one-line rules fail at a multi-line guard: after [then] they want
    a single space and the print. *)
Lemma one_line_head_fails l3 r' b w1 R :
  blank_break w1 ->
  re_match (Lit (opener ++ 32 :: 112 :: l3) -+- r') b
    (105 :: py "f addon.DEBUG then" ++ w1 ++ 112 :: R) = None.
Proof.
  intros [Hw Hn]. unfold re_match. rewrite rmatch_lit_none; [reflexivity|].
  change (105 :: py "f addon.DEBUG then" ++ w1 ++ 112 :: R)
    with (opener ++ w1 ++ 112 :: R).
  rewrite lit_match_app_both. apply lit_space_p; assumption.
Qed.

(** Rules 1 and 2 copy a multi-line guard. *)
Lemma one_line_rule_block p l3 r' t w w1 H' a E w2 s :
  p = Lit (opener ++ 32 :: 112 :: l3) -+- r' ->
  blank w -> blank_break w1 -> blank_break w2 ->
  contains opener a = false -> contains opener H' = false -> ~ In 105 E ->
  sub_at p t true (w ++ 105 :: block_rest w1 H' a E w2 ++ LF :: s)
  = w ++ 105 :: block_rest w1 H' a E w2 ++ LF :: sub_at p t true s.
Proof.
  intros -> Hw H1 H2 Ha HH HE.
  apply (guard_rule_at_opener _ (32 :: 112 :: l3) r' t w _ s eq_refl Hw).
  - apply block_rest_quiet; [apply H1|apply H2|assumption..].
  - intros b.
    replace (105 :: block_rest w1 H' a E w2 ++ LF :: s)
      with (105 :: py "f addon.DEBUG then" ++ w1
            ++ 112 :: (H' ++ [LPAREN] ++ a ++ [RPAREN] ++ E ++ w2
                       ++ py "end" ++ LF :: s))
      by (unfold block_rest; rewrite <- !app_assoc; reflexivity).
    apply one_line_head_fails, H1.
Qed.

Lemma concat_replicate_nil {A} n : concat (replicate n (@nil A)) = [].
Proof. induction n as [|n IH]; [reflexivity|exact IH]. Qed.

(** A block rule fails at a guard whose print is not the one it wants. *)
Lemma block_miss P' r' b w1 R :
  blank_break w1 -> stops CSpace R ->
  (forall b', lit_match (112 :: P') b' R = None) ->
  re_match (Lit (py "if addon.DEBUG then")
            -+- Star CSpace -+- Lit nl -+- Star CSpace
            -+- Lit (112 :: P') -+- r') b
    (py "if addon.DEBUG then" ++ w1 ++ R) = None.
Proof.
  intros [Hw Hn] Hst Hfail. unfold re_match.
  rewrite rmatch_lit_app, blank_break_rmatch.
  - rewrite rmatch_lit_none by apply Hfail.
    rewrite concat_replicate_nil. reflexivity.
  - exact Hw.
  - exact Hst.
  - intros st Hst'. apply (lit_cat_dead CSpace); [reflexivity|exact Hst'].
Qed.

(** Rule 1 on a line: a formatted guard is replaced, every other line is
    copied. *)
Lemma rule1_line l s :
  before 1 l ->
  sub_at pattern1 debug_call true (render l ++ LF :: s)
  = render (step 1 l) ++ LF :: sub_at pattern1 debug_call true s.
Proof.
  intros [Hv _].
  destruct l as [w body|w a|w a|w w1 a w2|w w1 a w2|w W tail|w W tail]; cbn [step].
  - apply (guard_rule_line pattern1 (py " print(string.format(") _ _ _ _
             eq_refl Hv I).
  - destruct Hv as (Hw & Hne & Hl & Hr & Hn & Ho). cbn [render].
    rewrite <- !app_assoc.
    rewrite (skip_blank pattern1 _ _ _ w _ eq_refl Hw). f_equal.
    set (X := py "f addon.DEBUG then print" ++ LPAREN :: a
              ++ RPAREN :: py " end").
    change (plain_guard a) with (105 :: X).
    change ((105 :: X) ++ LF :: s) with (105 :: X ++ LF :: s).
    change ((105 :: X) ++ LF :: sub_at pattern1 debug_call true s)
      with (105 :: X ++ LF :: sub_at pattern1 debug_call true s).
    rewrite sub_at_nomatch.
    + f_equal.
      apply (guard_rule_copies_quiet debug_call pattern1
               (py " print(string.format(") _ _ _ _ eq_refl).
      apply guard_rest_quiet; [reflexivity|reflexivity|exact Ho].
    + unfold re_match.
      change pattern1
        with (Lit (guard_print ++ py "string.format(")
              -+- Group (Plus not_rparen) -+- Lit (py ")) end")).
      rewrite rmatch_lit_none; [reflexivity|].
      replace (105 :: X ++ LF :: s)
        with (guard_print ++ a ++ RPAREN :: py " end" ++ LF :: s)
        by (unfold X; rewrite <- app_assoc; cbn [app];
            rewrite <- app_assoc; reflexivity).
      rewrite lit_match_app_both.
      apply (lit_match_needs RPAREN LPAREN); [notin|vm_compute; tauto|exact Hl].
  - destruct Hv as (Hw & Hne & Hl & Hr & Hn & Ho). cbn [render].
    unfold format_guard. rewrite <- !app_assoc.
    rewrite (skip_blank pattern1 _ _ _ w _ eq_refl Hw). f_equal.
    rewrite pattern1_shape.
    change (py ")) end" ++ LF :: s)
      with ((RPAREN :: py ") end") ++ LF :: s).
    rewrite guard_sub by assumption.
    rewrite debug_call_expand_app. apply (f_equal (app (debug_of a))).
    rewrite <- pattern1_shape.
    apply (copy_LF pattern1 _ _ _ _ _ eq_refl).
  - destruct Hv as (Hw & H1 & H2 & Hne & Hl & Hr & Hn & Ho).
    rewrite !plain_block_text.
    exact (one_line_rule_block pattern1 (py "rint(string.format(") _
             debug_call w w1 (py "rint") a [] w2 s eq_refl Hw H1 H2 Ho
             eq_refl (fun x => x)).
  - destruct Hv as (Hw & H1 & H2 & Hne & Hl & Hr & Hn & Ho).
    rewrite !format_block_text.
    exact (one_line_rule_block pattern1 (py "rint(string.format(") _
             debug_call w w1 (py "rint(string.format") a (py ")") w2 s
             eq_refl Hw H1 H2 Ho eq_refl ltac:(notin)).
  - apply (guard_rule_line pattern1 (py " print(string.format(") _ _ _ _
             eq_refl Hv I).
  - apply (guard_rule_line pattern1 (py " print(string.format(") _ _ _ _
             eq_refl Hv I).
Qed.

(** Rule 2 on a line: a plain guard is replaced, every other line is
    copied. *)
Lemma rule2_line l s :
  before 2 l ->
  sub_at pattern2 debug_call true (render l ++ LF :: s)
  = render (step 2 l) ++ LF :: sub_at pattern2 debug_call true s.
Proof.
  intros [Hv Hk].
  destruct l as [w body|w a|w a|w w1 a w2|w w1 a w2|w W tail|w W tail]; cbn [step];
    [| |simpl in Hk; lia| | | |].
  - apply (guard_rule_line pattern2 (py " print(") _ _ _ _ eq_refl Hv I).
  - destruct Hv as (Hw & Hne & Hl & Hr & Hn & Ho). cbn [render].
    unfold plain_guard. rewrite <- !app_assoc.
    rewrite (skip_blank pattern2 _ _ _ w _ eq_refl Hw). f_equal.
    rewrite pattern2_shape.
    change (py ") end" ++ LF :: s)
      with ((RPAREN :: py " end") ++ LF :: s).
    rewrite guard_sub by assumption.
    rewrite debug_call_expand_app. apply (f_equal (app (debug_of a))).
    rewrite <- pattern2_shape.
    apply (copy_LF pattern2 _ _ _ _ _ eq_refl).
  - destruct Hv as (Hw & H1 & H2 & Hne & Hl & Hr & Hn & Ho).
    rewrite !plain_block_text.
    exact (one_line_rule_block pattern2 (py "rint(") _
             debug_call w w1 (py "rint") a [] w2 s eq_refl Hw H1 H2 Ho
             eq_refl (fun x => x)).
  - destruct Hv as (Hw & H1 & H2 & Hne & Hl & Hr & Hn & Ho).
    rewrite !format_block_text.
    exact (one_line_rule_block pattern2 (py "rint(") _
             debug_call w w1 (py "rint(string.format") a (py ")") w2 s
             eq_refl Hw H1 H2 Ho eq_refl ltac:(notin)).
  - apply (guard_rule_line pattern2 (py " print(") _ _ _ _ eq_refl Hv I).
  - apply (guard_rule_line pattern2 (py " print(") _ _ _ _ eq_refl Hv I).
Qed.

(** Rule 3 on a line: a formatted multi-line guard is replaced, a plain
    one and every other line it can meet are copied. *)
Lemma rule3_line l s :
  before 3 l ->
  sub_at pattern3 debug_call true (render l ++ LF :: s)
  = render (step 3 l) ++ LF :: sub_at pattern3 debug_call true s.
Proof.
  intros [Hv Hk].
  destruct l as [w body|w a|w a|w w1 a w2|w w1 a w2|w W tail|w W tail]; cbn [step];
    try (simpl in Hk; lia).
  - apply (guard_rule_line pattern3 [] _ _ _ _ eq_refl Hv I).
  - destruct Hv as (Hw & H1 & H2 & Hne & Hl & Hr & Hn & Ho).
    rewrite !plain_block_text.
    apply (guard_rule_at_opener pattern3 [] _ debug_call w _ s eq_refl Hw).
    + apply block_rest_quiet;
        [apply H1|apply H2|exact Ho|reflexivity|exact (fun x => x)].
    + intros b.
      replace (105 :: block_rest w1 (py "rint") a [] w2 ++ LF :: s)
        with (py "if addon.DEBUG then" ++ w1
              ++ (py "print(" ++ a ++ RPAREN :: (w2 ++ py "end" ++ LF :: s)))
        by (unfold block_rest; rewrite <- !app_assoc; reflexivity).
      apply (block_miss (py "rint(string.format(") _ b w1 _ H1);
        [reflexivity|].
      intros b'.
      change (112 :: py "rint(string.format(")
        with (py "print(" ++ py "string.format(").
      rewrite lit_match_app_both.
      apply (lit_match_needs RPAREN LPAREN); [notin|vm_compute; tauto|exact Hl].
  - destruct Hv as (Hw & H1 & H2 & Hne & Hl & Hr & Hn & Ho).
    cbn [render]. unfold format_block. rewrite <- !app_assoc.
    rewrite (skip_blank pattern3 _ _ _ w _ eq_refl Hw).
    apply (f_equal (app w)).
    etransitivity;
      [exact (block_sub (py "rint(string.format(") (py ")") debug_call _
                w1 a w2 (LF :: s) H1 H2 Hne Hr)|].
    rewrite debug_call_expand_app. apply (f_equal (app (debug_of a))).
    apply (copy_LF pattern3 _ _ _ _ _ eq_refl).
  - apply (guard_rule_line pattern3 [] _ _ _ _ eq_refl Hv I).
  - apply (guard_rule_line pattern3 [] _ _ _ _ eq_refl Hv I).
Qed.

(** Rule 4 on a line: a plain multi-line guard is replaced, every other
    line it can meet is copied. *)
Lemma rule4_line l s :
  before 4 l ->
  sub_at pattern4 debug_call true (render l ++ LF :: s)
  = render (step 4 l) ++ LF :: sub_at pattern4 debug_call true s.
Proof.
  intros [Hv Hk].
  destruct l as [w body|w a|w a|w w1 a w2|w w1 a w2|w W tail|w W tail]; cbn [step];
    try (simpl in Hk; lia).
  - apply (guard_rule_line pattern4 [] _ _ _ _ eq_refl Hv I).
  - destruct Hv as (Hw & H1 & H2 & Hne & Hl & Hr & Hn & Ho).
    cbn [render]. unfold plain_block. rewrite <- !app_assoc.
    rewrite (skip_blank pattern4 _ _ _ w _ eq_refl Hw).
    apply (f_equal (app w)).
    etransitivity;
      [exact (block_sub (py "rint(") [] debug_call _
                w1 a w2 (LF :: s) H1 H2 Hne Hr)|].
    rewrite debug_call_expand_app. apply (f_equal (app (debug_of a))).
    apply (copy_LF pattern4 _ _ _ _ _ eq_refl).
  - apply (guard_rule_line pattern4 [] _ _ _ _ eq_refl Hv I).
  - apply (guard_rule_line pattern4 [] _ _ _ _ eq_refl Hv I).
Qed.

End LineRules12.

Section LineRules56.

Lemma word_no_LF W : In W info_words \/ In W debug_words -> ~ In LF W.
Proof.
  intros [H|H]; simpl in H;
    repeat (destruct H as [<-|H]; [notin|]); destruct H.
Qed.

(** An anchored rule copies an inert line. *)
Lemma anchored_rule_inert t F r b w body s :
  blank w -> (exists c rest, body = c :: rest /\ is_space c = false) ->
  quiet body ->
  (exists l', 112 :: F = print_call ++ l') ->
  sub_at (Bol -+- Star CSpace -+- Lit (112 :: F) -+- r) t b
    ((w ++ body) ++ LF :: s)
  = (w ++ body) ++ LF
    :: sub_at (Bol -+- Star CSpace -+- Lit (112 :: F) -+- r) t true s.
Proof.
  intros Hw (c & rest & -> & Hc) (Hn & Hp & _) (l' & El).
  rewrite <- !app_assoc.
  apply (anchored_copy t CSpace 112 F r eq_refl b w (c :: rest) s).
  - exact Hw.
  - exact Hc.
  - discriminate.
  - exact Hn.
  - intros b'. rewrite El. apply lit_match_absent; [notin|exact Hp].
Qed.

(** Rule 5 on a line: a debug print is replaced, an inert line and an
    info print are copied. *)
Lemma rule5_line l s :
  before 5 l ->
  sub_at pattern5 debug_head true (render l ++ LF :: s)
  = render (step 5 l) ++ LF :: sub_at pattern5 debug_head true s.
Proof.
  intros [Hv Hk].
  destruct l as [w body|w a|w a|w w1 a w2|w w1 a w2|w W tail|w W tail]; cbn [step render];
    try (simpl in Hk; lia).
  - destruct Hv as (Hw & Hb & Hq). rewrite pattern5_shape.
    apply (anchored_rule_inert debug_head _ _ true w body s Hw Hb Hq).
    exists (py "string.format(" ++ dq). reflexivity.
  - destruct Hv as (Hw & HW & Hn & Hp & Ho). rewrite pattern5_shape.
    pose proof (word_no_LF W (or_introl HW)) as HWn.
    rewrite <- !(app_assoc w).
    apply (anchored_copy debug_head CSpace 112 _ _ eq_refl true w
             (print_head ++ W ++ tail) s).
    + exact Hw.
    + reflexivity.
    + change print_head with (112 :: py "rint(" ++ dq). discriminate.
    + unfold print_head. notin.
    + intros b'. rewrite <- !app_assoc.
      apply lit_clash_none. reflexivity.
  - destruct Hv as (Hw & HW & Hn & Hp & Ho).
    replace ((w ++ format_head ++ W ++ tail) ++ LF :: s)
      with (w ++ format_head ++ W ++ (tail ++ LF :: s))
      by (rewrite <- !app_assoc; reflexivity).
    rewrite (rule5_at_line_start w W _ Hw HW).
    rewrite pattern5_shape, bol_copy by exact Hn.
    rewrite <- !app_assoc. reflexivity.
Qed.

(** Rule 6 on a line: an info print is replaced, an inert line is
    copied. *)
Lemma rule6_line l s :
  before 6 l ->
  sub_at pattern6 info_head true (render l ++ LF :: s)
  = render (step 6 l) ++ LF :: sub_at pattern6 info_head true s.
Proof.
  intros [Hv Hk].
  destruct l as [w body|w a|w a|w w1 a w2|w w1 a w2|w W tail|w W tail]; cbn [step render];
    try (simpl in Hk; lia).
  - destruct Hv as (Hw & Hb & Hq). rewrite pattern6_shape.
    apply (anchored_rule_inert info_head _ _ true w body s Hw Hb Hq).
    exists dq. reflexivity.
  - destruct Hv as (Hw & HW & Hn & Hp & Ho).
    replace ((w ++ print_head ++ W ++ tail) ++ LF :: s)
      with (w ++ print_head ++ W ++ (tail ++ LF :: s))
      by (rewrite <- !app_assoc; reflexivity).
    rewrite (rule6_at_line_start w W _ Hw HW).
    rewrite pattern6_shape, bol_copy by exact Hn.
    rewrite <- !app_assoc. reflexivity.
Qed.

End LineRules56.

Section LineTexts.

Lemma text_of_cons l ls :
  text_of (l :: ls) = render l ++ LF :: text_of ls.
Proof. unfold text_of. simpl. rewrite <- app_assoc. reflexivity. Qed.

(** A rule that treats each line as [step k] says treats a text of lines
    line by line. *)
Lemma rule_text p t k :
  (forall l s, before k l ->
     sub_at p t true (render l ++ LF :: s)
     = render (step k l) ++ LF :: sub_at p t true s) ->
  sub_at p t true [] = [] ->
  forall ls, Forall (before k) ls ->
    sub_at p t true (text_of ls) = text_of (map (step k) ls).
Proof.
  intros Hline Hnil ls Hls. induction Hls as [|l ls Hl _ IH].
  - exact Hnil.
  - change (map (step k) (l :: ls)) with (step k l :: map (step k) ls).
    rewrite !text_of_cons, Hline, IH by exact Hl. reflexivity.
Qed.

Lemma Forall_step k ls :
  (1 <= k <= 6)%nat -> Forall (before k) ls ->
  Forall (before (S k)) (map (step k) ls).
Proof.
  intros Hk Hls. induction Hls as [|l ls Hl _ IH]; constructor.
  - apply step_before; assumption.
  - exact IH.
Qed.

(** The rewrite of a text of valid lines, line by line. *)
Lemma rewrite_lines ls :
  Forall valid ls -> fix_logging_text (text_of ls) = text_of (map settle ls).
Proof.
  intros Hv.
  assert (H1 : Forall (before 1) ls).
  { eapply Forall_impl; [exact Hv|]. intros l Hl. split; [exact Hl|].
    destruct l; simpl; lia || exact I. }
  pose proof (Forall_step 1 _ ltac:(lia) H1) as H2.
  pose proof (Forall_step 2 _ ltac:(lia) H2) as H3.
  pose proof (Forall_step 3 _ ltac:(lia) H3) as H4.
  pose proof (Forall_step 4 _ ltac:(lia) H4) as H5.
  pose proof (Forall_step 5 _ ltac:(lia) H5) as H6.
  unfold fix_logging_text, rule1, rule2, rule3, rule4, rule5, rule6, sub.
  rewrite (rule_text pattern1 debug_call 1 rule1_line eq_refl ls H1).
  rewrite (rule_text pattern2 debug_call 2 rule2_line eq_refl _ H2).
  rewrite (rule_text pattern3 debug_call 3 rule3_line eq_refl _ H3).
  rewrite (rule_text pattern4 debug_call 4 rule4_line eq_refl _ H4).
  rewrite (rule_text pattern5 debug_head 5 rule5_line eq_refl _ H5).
  rewrite (rule_text pattern6 info_head 6 rule6_line eq_refl _ H6).
  f_equal. rewrite !map_map. apply map_ext. intros l. apply settle_steps.
Qed.

Lemma settled_lines ls :
  Forall valid ls -> Forall valid (map settle ls) /\
  map settle (map settle ls) = map settle ls.
Proof.
  intros Hv. split.
  - induction Hv as [|l ls Hl _ IH]; constructor;
      [apply settle_valid, Hl|exact IH].
  - rewrite map_map. apply map_ext. intros l. apply settle_settle.
Qed.



End LineTexts.
